(** * Greenhouse dashboard relay: the in-memory store and its event handlers

    A shallow embedding of the dashboard server (Express + Socket.io + MQTT):
    the [dashboardData] store, the MQTT message handler with its four data
    handlers, the acknowledge route and the Socket.io handlers, followed by
    the properties of the bounded collections, the counters, the fan-out and
    the acknowledgment life cycle.

    The page and health routes only read the store and are left out.  The
    clock is an input: every [Date.now()] and [new Date()] a handler
    evaluates is an argument of its model, in milliseconds.  The counters
    are natural numbers (a JavaScript number counts exactly up to 2^53). *)

From Stdlib Require Import ZArith QArith Lia.
From stdpp Require Import base list strings pretty.

Open Scope string_scope.
Open Scope list_scope.
Open Scope nat_scope.
Set Warnings "-register-all".

(** ** JavaScript values *)

(** The values the server handles: what [JSON.parse] returns (null, booleans,
    numbers, strings, arrays, objects), [undefined], and the [Date] objects
    the handlers create.  A JSON number is a finite double, carried here by
    its rational value.  An object is the list of its own properties in
    creation order. *)
Inductive value : Type :=
| VUndefined
| VNull
| VBool (b : bool)
| VNum (q : Q)
| VStr (s : string)
| VDate (ms : Z)
| VArr (items : list value)
| VObj (props : list (string * value)).

Abbreviation object := (list (string * value)).

(** [o.k] on an own property: [None] when the object has no such property. *)
Fixpoint own (k : string) (o : object) : option value :=
  match o with
  | [] => None
  | (k', v) :: o' => if String.eqb k' k then Some v else own k o'
  end.

(** [o.k]: [undefined] when absent (none of the keys read by the server is
    on a built-in prototype). *)
Definition prop_get (k : string) (o : object) : value :=
  default VUndefined (own k o).

(** [o[k] = v]: an existing property keeps its position and takes the new
    value; a new property is added last. *)
Fixpoint prop_set (k : string) (v : value) (o : object) : object :=
  match o with
  | [] => [(k, v)]
  | (k', v') :: o' =>
      if String.eqb k' k then (k', v) :: o' else (k', v') :: prop_set k v o'
  end.

(** [delete o[k]]. *)
Fixpoint prop_delete (k : string) (o : object) : object :=
  match o with
  | [] => []
  | (k', v') :: o' =>
      if String.eqb k' k then prop_delete k o' else (k', v') :: prop_delete k o'
  end.

(** [Object.keys(o)]: keys that are not array indices come in creation
    order; the keys of the sensor store all start with [sensor_]. *)
Definition Object_keys (o : object) : list string := o.*1.

(** The own enumerable properties a spread [...v] copies: those of an
    object, the indexed elements of an array, the indexed characters of a
    string (taken as its sequence of characters), and nothing for the other
    primitives, [null] and [undefined]. *)
Definition own_entries (v : value) : object :=
  match v with
  | VObj props => props
  | VArr items => imap (fun i x => (pretty i, x)) items
  | VStr s =>
      imap (fun i c => (pretty i, VStr (String c EmptyString)))
           (String.list_ascii_of_string s)
  | _ => []
  end.

(** The members of an object literal [{ k: v, ...src }], evaluated left to
    right. *)
Inductive member : Type :=
| Field (k : string) (v : value)
| Spread (src : value).

Definition copy_properties (src : object) (o : object) : object :=
  fold_left (fun acc kv => prop_set kv.1 kv.2 acc) src o.

Definition define (o : object) (m : member) : object :=
  match m with
  | Field k v => prop_set k v o
  | Spread src => copy_properties (own_entries src) o
  end.

Definition object_literal (ms : list member) : object :=
  fold_left define ms [].

(** [a === b].  Primitives compare by value.  Objects, arrays and dates
    compare by identity: the two sides of every comparison in the server
    come from different messages, so they are never the same object. *)
Definition strict_eq (a b : value) : bool :=
  match a, b with
  | VUndefined, VUndefined => true
  | VNull, VNull => true
  | VBool x, VBool y => Bool.eqb x y
  | VNum x, VNum y => Qeq_bool x y
  | VStr x, VStr y => String.eqb x y
  | _, _ => false
  end.

(** ** The store *)

Record statistics_t : Type := mkStatistics {
  totalAlerts : nat;
  criticalAlerts : nat;
  anomaliesDetected : nat
}.

Record dashboard : Type := mkDashboard {
  sensors : object;
  alerts : list object;
  predictions : object;
  systemStatus : object;
  statistics : statistics_t
}.

Definition online (boot : Z) : value :=
  VObj [("status", VStr "online"); ("lastUpdate", VDate boot)].

(** [dashboardData] as the module creates it, [boot] being the clock while
    the literal is evaluated. *)
Definition dashboardData (boot : Z) : dashboard :=
  {| sensors := [];
     alerts := [];
     predictions := [];
     systemStatus :=
       [("layer1", online boot); ("layer2", online boot); ("layer5", online boot)];
     statistics :=
       {| totalAlerts := 0; criticalAlerts := 0; anomaliesDetected := 0 |} |}.

Definition set_sensors (f : object -> object) (d : dashboard) : dashboard :=
  {| sensors := f (sensors d); alerts := alerts d; predictions := predictions d;
     systemStatus := systemStatus d; statistics := statistics d |}.

Definition set_alerts (f : list object -> list object) (d : dashboard) : dashboard :=
  {| sensors := sensors d; alerts := f (alerts d); predictions := predictions d;
     systemStatus := systemStatus d; statistics := statistics d |}.

Definition set_predictions (p : object) (d : dashboard) : dashboard :=
  {| sensors := sensors d; alerts := alerts d; predictions := p;
     systemStatus := systemStatus d; statistics := statistics d |}.

Definition set_statistics (f : statistics_t -> statistics_t) (d : dashboard) : dashboard :=
  {| sensors := sensors d; alerts := alerts d; predictions := predictions d;
     systemStatus := systemStatus d; statistics := f (statistics d) |}.

Definition incr_totalAlerts (s : statistics_t) : statistics_t :=
  {| totalAlerts := S (totalAlerts s); criticalAlerts := criticalAlerts s;
     anomaliesDetected := anomaliesDetected s |}.

Definition incr_criticalAlerts (s : statistics_t) : statistics_t :=
  {| totalAlerts := totalAlerts s; criticalAlerts := S (criticalAlerts s);
     anomaliesDetected := anomaliesDetected s |}.

Definition incr_anomaliesDetected (s : statistics_t) : statistics_t :=
  {| totalAlerts := totalAlerts s; criticalAlerts := criticalAlerts s;
     anomaliesDetected := S (anomaliesDetected s) |}.

(** The store as the value sent to a client or returned by the API. *)
Definition dashboard_value (d : dashboard) : value :=
  VObj [("sensors", VObj (sensors d));
        ("alerts", VArr (VObj <$> alerts d));
        ("predictions", VObj (predictions d));
        ("systemStatus", VObj (systemStatus d));
        ("statistics",
          VObj [("totalAlerts", VNum (inject_Z (Z.of_nat (totalAlerts (statistics d)))));
                ("criticalAlerts", VNum (inject_Z (Z.of_nat (criticalAlerts (statistics d)))));
                ("anomaliesDetected", VNum (inject_Z (Z.of_nat (anomaliesDetected (statistics d)))))])].

(** ** Effects: what a handler sends out *)

Inductive error : Type :=
| SyntaxError
| TypeError.

Inductive effect : Type :=
| io_emit (event : string) (payload : value)
| socket_emit (socket : nat) (event : string) (payload : value)
| res_json (status : nat) (body : value)
| console_error (topic : string) (e : error)
| console_log (line : string).

(** ** Handlers as computations over the store

    A handler reads and writes the store, sends effects, and completes
    normally or throws.  A throw keeps the writes and the effects made
    before it. *)
Inductive completion (A : Type) : Type :=
| Normal (a : A)
| Thrown (e : error).
Arguments Normal {A} a.
Arguments Thrown {A} e.

Record result (A : Type) : Type := mkResult {
  outcome : completion A;
  store : dashboard;
  sent : list effect
}.
Arguments mkResult {A} _ _ _.
Arguments outcome {A} _.
Arguments store {A} _.
Arguments sent {A} _.

Definition M (A : Type) : Type := dashboard -> result A.

Definition ret {A} (a : A) : M A := fun d => mkResult (Normal a) d [].

Definition bind {A B} (m : M A) (k : A -> M B) : M B :=
  fun d =>
    let r := m d in
    match outcome r with
    | Normal a =>
        let r' := k a (store r) in
        mkResult (outcome r') (store r') (sent r ++ sent r')
    | Thrown e => mkResult (Thrown e) (store r) (sent r)
    end.

Notation "x <- m ;; k" := (bind m (fun x => k))
  (at level 100, m at next level, right associativity).
Notation "m ;; k" := (bind m (fun _ => k))
  (at level 100, right associativity).

Definition throw {A} (e : error) : M A := fun d => mkResult (Thrown e) d [].

Definition try_catch (body : M unit) (handler : error -> M unit) : M unit :=
  fun d =>
    let r := body d in
    match outcome r with
    | Normal a => r
    | Thrown e =>
        let r' := handler e (store r) in
        mkResult (outcome r') (store r') (sent r ++ sent r')
    end.

Definition read : M dashboard := fun d => mkResult (Normal d) d [].
Definition modify (f : dashboard -> dashboard) : M unit :=
  fun d => mkResult (Normal tt) (f d) [].
Definition send (e : effect) : M unit := fun d => mkResult (Normal tt) d [e].

(** ** The data handlers *)

(** The template literals [`sensor_${Date.now()}`] and
    [`alert_${Date.now()}`]: the integer reading is printed in decimal. *)
Definition sensor_key (now_ms : Z) : string := "sensor_" +:+ pretty now_ms.
Definition alert_key (now_ms : Z) : string := "alert_" +:+ pretty now_ms.

(** [handleSensorData(data)]; [now_ms] is what [Date.now()] returns and
    [now] the time of [new Date()]. *)
Definition handleSensorData (data : value) (now_ms now : Z) : M unit :=
  let sensorId := sensor_key now_ms in
  modify (set_sensors (prop_set sensorId
    (VObj (object_literal
       [Spread data; Field "timestamp" (VDate now); Field "status" (VStr "active")]))));;
  d <- read;;
  let sensorKeys := Object_keys (sensors d) in
  if (100 <? length sensorKeys)%nat then
    match sensorKeys with
    | first :: _ => modify (set_sensors (prop_delete first))
    | [] => ret tt
    end
  else ret tt.

(** [data.k] for a key that no built-in prototype defines: a [TypeError]
    on [null] and [undefined], the own property otherwise. *)
Definition get_member (data : value) (k : string) : M value :=
  match data with
  | VUndefined | VNull => throw TypeError
  | _ => ret (prop_get k (own_entries data))
  end.

Definition new_alert (data : value) (now_ms now : Z) : object :=
  object_literal
    [Field "id" (VStr (alert_key now_ms)); Spread data;
     Field "timestamp" (VDate now); Field "acknowledged" (VBool false)].

(** [handleEmergencyAlert(data)]. *)
Definition handleEmergencyAlert (data : value) (now_ms now : Z) : M unit :=
  let alert := new_alert data now_ms now in
  modify (set_alerts (cons alert));;
  modify (set_statistics incr_totalAlerts);;
  severity <- get_member data "severity";;
  (if strict_eq severity (VStr "CRITICAL")
   then modify (set_statistics incr_criticalAlerts)
   else ret tt);;
  d <- read;;
  (if (50 <? length (alerts d))%nat
   then modify (set_alerts (take 50))
   else ret tt);;
  send (io_emit "newAlert" (VObj alert)).

(** [handlePredictionData(data)]. *)
Definition handlePredictionData (data : value) (now : Z) : M unit :=
  modify (set_predictions
    (object_literal [Spread data; Field "timestamp" (VDate now)])).

(** [handleAnomalyData(data)]. *)
Definition handleAnomalyData (data : value) : M unit :=
  modify (set_statistics incr_anomaliesDetected).

(** ** The MQTT message handler *)

(** [JSON.parse(message.toString())]: a message is given by what parsing
    its text yields, [None] standing for a text that is not JSON, on which
    [JSON.parse] throws a [SyntaxError]. *)
Definition JSON_parse (message : option value) : M value :=
  match message with
  | Some data => ret data
  | None => throw SyntaxError
  end.

(** The three clock readings a message can consume: [Date.now()] and
    [new Date()] inside the data handler, [new Date()] for the fan-out. *)
Record clock : Type := mkClock {
  date_now : Z;
  handler_date : Z;
  emit_date : Z
}.

(** The topics the client subscribes to on connect. *)
Definition sensor_topic : string := "invernadero/sensores/raw".
Definition alert_topic : string := "invernadero/alertas/emergentes".
Definition prediction_topic : string := "invernadero/predicciones".
Definition anomaly_topic : string := "invernadero/anomalias".

(** The [switch (topic)] of the message handler; a topic without a case
    falls through. *)
Definition dispatch (topic : string) (data : value) (c : clock) : M unit :=
  if String.eqb topic sensor_topic then
    handleSensorData data (date_now c) (handler_date c)
  else if String.eqb topic alert_topic then
    handleEmergencyAlert data (date_now c) (handler_date c)
  else if String.eqb topic prediction_topic then
    handlePredictionData data (handler_date c)
  else if String.eqb topic anomaly_topic then
    handleAnomalyData data
  else ret tt.

(** The payload of the [dataUpdate] event. *)
Definition data_update (topic : string) (data : value) (now : Z) : value :=
  VObj [("topic", VStr topic); ("data", data); ("timestamp", VDate now)].

(** [mqttClient.on('message', (topic, message) => ...)]. *)
Definition on_message (topic : string) (message : option value) (c : clock) : M unit :=
  try_catch
    (data <- JSON_parse message;;
     dispatch topic data c;;
     send (io_emit "dataUpdate" (data_update topic data (emit_date c))))
    (fun error => send (console_error topic error)).

(** ** The acknowledge route and the Socket.io handlers *)

(** [dashboardData.alerts.find(a => a.id === alertId)]: the position of the
    first match stands for the reference [find] returns. *)
Fixpoint find_alert (alertId : value) (l : list object) : option nat :=
  match l with
  | [] => None
  | a :: l' =>
      if strict_eq (prop_get "id" a) alertId then Some 0
      else S <$> find_alert alertId l'
  end.

(** [alert.k = v] through the reference at position [i]. *)
Definition assign_alert (i : nat) (k : string) (v : value) : M unit :=
  modify (set_alerts (alter (prop_set k v) i)).

Definition deref_alert (i : nat) : M object :=
  d <- read;; ret (default [] (alerts d !! i)).

(** [app.post('/api/alerts/:id/acknowledge', ...)]. *)
Definition post_acknowledge (alertId : string) (now : Z) : M unit :=
  d <- read;;
  match find_alert (VStr alertId) (alerts d) with
  | Some i =>
      assign_alert i "acknowledged" (VBool true);;
      assign_alert i "acknowledgedAt" (VDate now);;
      alert <- deref_alert i;;
      send (res_json 200 (VObj [("success", VBool true); ("alert", VObj alert)]))
  | None =>
      send (res_json 404 (VObj [("error", VStr "Alert not found")]))
  end.

(** [app.get('/api/dashboard-data', ...)]. *)
Definition get_dashboard_data : M unit :=
  d <- read;; send (res_json 200 (dashboard_value d)).

(** [io.on('connection', (socket) => ...)]. *)
Definition on_connection (socket : nat) : M unit :=
  send (console_log "Client connected");;
  d <- read;; send (socket_emit socket "initialData" (dashboard_value d)).

(** [socket.on('requestData', ...)]. *)
Definition on_requestData (socket : nat) : M unit :=
  d <- read;; send (socket_emit socket "dataUpdate" (dashboard_value d)).

(** [socket.on('acknowledgeAlert', (alertId) => ...)]. *)
Definition on_acknowledgeAlert (alertId : value) : M unit :=
  d <- read;;
  match find_alert alertId (alerts d) with
  | Some i =>
      assign_alert i "acknowledged" (VBool true);;
      send (io_emit "alertAcknowledged" alertId)
  | None => ret tt
  end.

(** [socket.on('disconnect', ...)]. *)
Definition on_disconnect (socket : nat) : M unit :=
  send (console_log "Client disconnected").

(** ** The server as an event loop *)

Inductive event : Type :=
| MqttMessage (topic : string) (message : option value) (c : clock)
| GetDashboardData
| PostAcknowledge (alertId : string) (now : Z)
| Connection (socket : nat)
| RequestData (socket : nat)
| AcknowledgeAlert (socket : nat) (alertId : value)
| Disconnect (socket : nat).

Definition handle (e : event) : M unit :=
  match e with
  | MqttMessage topic message c => on_message topic message c
  | GetDashboardData => get_dashboard_data
  | PostAcknowledge alertId now => post_acknowledge alertId now
  | Connection socket => on_connection socket
  | RequestData socket => on_requestData socket
  | AcknowledgeAlert _ alertId => on_acknowledgeAlert alertId
  | Disconnect socket => on_disconnect socket
  end.

(** Events are handled one at a time, each to completion. *)
Fixpoint run (es : list event) (d : dashboard) : dashboard :=
  match es with
  | [] => d
  | e :: es' => run es' (store (handle e d))
  end.

Fixpoint trace (es : list event) (d : dashboard) : list effect :=
  match es with
  | [] => []
  | e :: es' => sent (handle e d) ++ trace es' (store (handle e d))
  end.

(** * Vocabulary of the properties

    Names for the parts of the handlers the statements talk about, the
    one-event transition functions the handlers are shown to compute, and
    the concrete runs used as examples. *)

(** The record stored for a sensor reading. *)
Definition sensor_record (data : value) (now : Z) : value :=
  VObj (object_literal
    [Spread data; Field "timestamp" (VDate now); Field "status" (VStr "active")]).

(** The eviction at the end of [handleSensorData]. *)
Definition keep_last_100 (o : object) : object :=
  if 100 <? length (Object_keys o) then
    match Object_keys o with
    | first :: _ => prop_delete first o
    | [] => o
    end
  else o.

(** The truncation at the end of [handleEmergencyAlert]. *)
Definition keep_newest_50 (l : list object) : list object :=
  if 50 <? length l then take 50 l else l.

(** Reading a property of [null] or [undefined] throws. *)
Definition nullish (v : value) : bool :=
  match v with
  | VUndefined | VNull => true
  | _ => false
  end.

(** [data.severity === 'CRITICAL'], for a payload on which it evaluates. *)
Definition is_critical (data : value) : bool :=
  strict_eq (prop_get "severity" (own_entries data)) (VStr "CRITICAL").

(** What the handler sends after the dispatch: the fan-out when the data
    handler completed, the log line when it threw. *)
Definition after_dispatch (topic : string) (data : value) (c : clock)
    (o : completion unit) : effect :=
  match o with
  | Normal _ => io_emit "dataUpdate" (data_update topic data (emit_date c))
  | Thrown e => console_error topic e
  end.

(** The topic of a message is one of the four with a case, or another. *)
Inductive topic_case (topic : string) : Prop :=
| topic_sensor : topic = sensor_topic → topic_case topic
| topic_alert : topic = alert_topic → topic_case topic
| topic_prediction : topic = prediction_topic → topic_case topic
| topic_anomaly : topic = anomaly_topic → topic_case topic
| topic_other :
    (∀ data c, dispatch topic data c = ret tt) →
    topic ≠ sensor_topic → topic ≠ alert_topic → topic_case topic.

Definition has_id (alertId : value) (a : object) : bool :=
  strict_eq (prop_get "id" a) alertId.

(** The two writes of the acknowledge route. *)
Definition acknowledge_at (now : Z) (a : object) : object :=
  prop_set "acknowledgedAt" (VDate now) (prop_set "acknowledged" (VBool true) a).

Definition ok_response (a : object) : effect :=
  res_json 200 (VObj [("success", VBool true); ("alert", VObj a)]).

Definition not_found_response : effect :=
  res_json 404 (VObj [("error", VStr "Alert not found")]).

(** A store holding one critical alert, ingested at clock reading 5. *)
Definition one_alert : dashboard :=
  run [MqttMessage alert_topic (Some (VObj [("severity", VStr "CRITICAL")]))
         (mkClock 5 5 6)]
      (dashboardData 0).

(** The payload of an event that reaches [handleEmergencyAlert]. *)
Definition alert_payload (e : event) : option (value * clock) :=
  match e with
  | MqttMessage topic (Some data) c =>
      if String.eqb topic alert_topic then Some (data, c) else None
  | _ => None
  end.

Definition is_alert_ingestion (e : event) : bool :=
  match alert_payload e with
  | Some _ => true
  | None => false
  end.

Definition is_critical_ingestion (e : event) : bool :=
  match alert_payload e with
  | Some (data, _) => is_critical data
  | None => false
  end.

Definition count_events (p : event → bool) (es : list event) : nat :=
  length (List.filter p es).

(** The alert records created by a sequence of events, oldest first. *)
Definition ingested (es : list event) : list object :=
  omap (fun e =>
          match alert_payload e with
          | Some (data, c) => Some (new_alert data (date_now c) (handler_date c))
          | None => None
          end) es.

(** No alert payload of the sequence is [null]. *)
Definition alert_payloads_defined (es : list event) : Prop :=
  ∀ e data c, e ∈ es → alert_payload e = Some (data, c) → nullish data = false.

(** [a'] is [a] up to the two properties the acknowledgment handlers write. *)
Definition same_alert (a a' : object) : Prop :=
  ∀ k, k ≠ "acknowledged" → k ≠ "acknowledgedAt" → own k a' = own k a.

Definition acknowledged (a : object) : Prop :=
  prop_get "acknowledged" a = VBool true.

(** The alert list after one event. *)
Definition next_alerts (e : event) (l : list object) : list object :=
  match e with
  | MqttMessage topic (Some data) c =>
      if String.eqb topic alert_topic then
        let l' := new_alert data (date_now c) (handler_date c) :: l in
        if nullish data then l' else keep_newest_50 l'
      else l
  | PostAcknowledge alertId now =>
      match find_alert (VStr alertId) l with
      | Some i => alter (acknowledge_at now) i l
      | None => l
      end
  | AcknowledgeAlert _ alertId =>
      match find_alert alertId l with
      | Some i => alter (prop_set "acknowledged" (VBool true)) i l
      | None => l
      end
  | _ => l
  end.

(** The alert record an event creates, if it creates one. *)
Definition created (e : event) : list object :=
  match alert_payload e with
  | Some (data, c) => [new_alert data (date_now c) (handler_date c)]
  | None => []
  end.

(** Fifty alerts, one per millisecond, followed by a message whose text is
    the JSON literal [null]. *)
Definition fifty_alerts : list event :=
  (fun t => MqttMessage alert_topic (Some (VObj [("severity", VStr "HIGH")]))
              (mkClock t t t)) <$> seqZ 1 50.

Definition null_alert : event :=
  MqttMessage alert_topic (Some VNull) (mkClock 51 51 51).

(** The sensor store after one event. *)
Definition next_sensors (e : event) (o : object) : object :=
  match e with
  | MqttMessage topic (Some data) c =>
      if String.eqb topic sensor_topic then
        keep_last_100
          (prop_set (sensor_key (date_now c)) (sensor_record data (handler_date c)) o)
      else o
  | _ => o
  end.

(** The entry a sensor message writes, and the entries of a sequence of
    events in arrival order. *)
Definition sensor_entry (e : event) : object :=
  match e with
  | MqttMessage topic (Some data) c =>
      if String.eqb topic sensor_topic then
        [(sensor_key (date_now c), sensor_record data (handler_date c))]
      else []
  | _ => []
  end.

Definition sensor_entries (es : list event) : object :=
  es ≫= sensor_entry.

(** The [Date.now()] readings of the sensor messages of a sequence. *)
Definition sensor_times (es : list event) : list Z :=
  es ≫= (fun e =>
    match e with
    | MqttMessage topic (Some _) c =>
        if String.eqb topic sensor_topic then [date_now c] else []
    | _ => []
    end).

(** Reading number [n], and the message that delivers it at clock [t]. *)
Definition reading (n : Z) : value := VObj [("n", VNum (inject_Z n))].

Definition sensor_message (n t : Z) : event :=
  MqttMessage sensor_topic (Some (reading n)) (mkClock t t t).

(** R1..R100 arrive one per millisecond and R101 in the millisecond of
    R100. *)
Definition readings_with_collision : list event :=
  ((fun n => sensor_message n n) <$> seqZ 1 100) ++ [sensor_message 101 100].

Definition is_io_emit (name : string) (x : effect) : bool :=
  match x with
  | io_emit event _ => String.eqb event name
  | _ => false
  end.

(** The number of [io.emit(name, ...)] calls among the effects. *)
Definition count_emits (name : string) (out : list effect) : nat :=
  length (List.filter (is_io_emit name) out).

(** * The page script and the rest of the server

    The listeners the dashboard page registers on its socket, its periodic
    simulation of the harvest countdown, and the topic list the server
    subscribes to. *)

(** The [topics] array of the MQTT [connect] handler. *)
Definition topics : list string :=
  [sensor_topic; alert_topic; prediction_topic; anomaly_topic].

(** [if (v)]: the values that count as true. *)
Definition truthy (v : value) : bool :=
  match v with
  | VUndefined | VNull => false
  | VBool b => b
  | VNum q => negb (Qeq_bool q 0)
  | VStr s => negb (String.eqb s EmptyString)
  | VDate _ | VArr _ | VObj _ => true
  end.

(** The [console.log] call sites of the page script, with the values they
    print.  The values are those the server emitted; on the wire the [Date]
    fields travel as strings, which no listener reads. *)
Inductive client_log : Type :=
| UpdateLogged (topic : value)
| SensorsLogged (temperatura humedad co2 luz : value)
| AnomalyLogged (data : value)
| AlertDisplayed (alert : value)
| PredictionsLogged (data : value).

(** [updateSensorData(data)]. *)
Definition updateSensorData (data : value) : list client_log :=
  if truthy data then
    [SensorsLogged (prop_get "Tair" (own_entries data))
                   (prop_get "Rhair" (own_entries data))
                   (prop_get "CO2air" (own_entries data))
                   (prop_get "AssimLight" (own_entries data))]
  else [].

(** [updateAnomalies(data)]. *)
Definition updateAnomalies (data : value) : list client_log :=
  if truthy data
     && strict_eq (prop_get "prediction" (own_entries data)) (VNum (-1))
  then [AnomalyLogged data]
  else [].

(** [displayRealAlert(alert)]. *)
Definition displayRealAlert (alert : value) : list client_log :=
  [AlertDisplayed alert].

(** [updatePredictions(data)]. *)
Definition updatePredictions (data : value) : list client_log :=
  [PredictionsLogged data].

(** [handleRealDataUpdate(update)]: reading [update.topic] throws on [null]
    and [undefined], before anything is logged. *)
Definition handleRealDataUpdate (update : value) : completion (list client_log) :=
  if nullish update then Thrown TypeError
  else
    let topic := prop_get "topic" (own_entries update) in
    let data := prop_get "data" (own_entries update) in
    Normal
      (UpdateLogged topic ::
       (if strict_eq topic (VStr sensor_topic) then updateSensorData data
        else if strict_eq topic (VStr anomaly_topic) then updateAnomalies data
        else if strict_eq topic (VStr alert_topic) then displayRealAlert data
        else if strict_eq topic (VStr prediction_topic) then updatePredictions data
        else [])).

(** The listeners of [setupSocketListeners] for the events the server
    emits: [dataUpdate] and [newAlert]; any other event has no listener.
    (The [connect] and [disconnect] listeners belong to the life cycle of
    the socket and only print a line.) *)
Definition client_on (event : string) (payload : value) : completion (list client_log) :=
  if String.eqb event "dataUpdate" then handleRealDataUpdate payload
  else if String.eqb event "newAlert" then Normal (displayRealAlert payload)
  else Normal [].

(** What a server effect delivers to the connected client on socket [me]:
    [io.emit] reaches every socket, [socket.emit] its own. *)
Definition received (me : nat) (x : effect) : option (string * value) :=
  match x with
  | io_emit event payload => Some (event, payload)
  | socket_emit socket event payload =>
      if Nat.eqb socket me then Some (event, payload) else None
  | _ => None
  end.

(** The log lines the client on socket [me] prints for a list of server
    effects; a listener that throws prints nothing. *)
Definition client_logs (me : nat) (out : list effect) : list client_log :=
  out ≫= (fun x =>
    match received me x with
    | Some (event, payload) =>
        match client_on event payload with
        | Normal logs => logs
        | Thrown _ => []
        end
    | None => []
    end).

(** [Number.MAX_SAFE_INTEGER], 2^53 - 1. *)
Definition MAX_SAFE_INTEGER : Z := 9007199254740991.

(** A countdown as [parseInt] reads it from the [data-days] attribute of a
    greenhouse box: [NaN], or an integer of at most [MAX_SAFE_INTEGER].
    This is the range in which the double arithmetic of the update is exact
    and in which the number [setAttribute] writes back as a decimal string
    is read by the next [parseInt] as itself; countdowns above it are not
    modelled. *)
Inductive countdown : Type :=
| NaN
| Days (n : Z) (safe : Is_true (n <=? MAX_SAFE_INTEGER)%Z).

Definition days (currentDays : countdown) : option Z :=
  match currentDays with
  | NaN => None
  | Days n _ => Some n
  end.

(** [Math.random() < 0.5 ? -1 : 0], for the draw [r].  Draws are rationals
    in [0, 1); a double is below the literal [0.1] exactly when it is below
    1/10, and 0.5 is exact. *)
Definition decrement (r : Q) : Z := if Qle_bool (1 # 2) r then 0 else -1.

Lemma decrement_nonpos (r : Q) : Is_true (decrement r <=? 0)%Z.
Proof. unfold decrement. destruct (Qle_bool (1 # 2) r); exact I. Qed.

(** The updated countdown is in the modelled range again. *)
Lemma still_safe (n delta : Z) :
  Is_true (n <=? MAX_SAFE_INTEGER)%Z → Is_true (delta <=? 0)%Z →
  Is_true (Z.max 1 (n + delta) <=? MAX_SAFE_INTEGER)%Z.
Proof.
  rewrite !Is_true_true, !Z.leb_le. unfold MAX_SAFE_INTEGER. lia.
Qed.

(** [Math.max(1, currentDays + (Math.random() < 0.5 ? -1 : 0))]; with
    [NaN] the sum and the maximum are [NaN]. *)
Definition new_days (currentDays : countdown) (r : Q) : countdown :=
  match currentDays with
  | NaN => NaN
  | Days n safe =>
      Days (Z.max 1 (n + decrement r))
           (still_safe n (decrement r) safe (decrement_nonpos r))
  end.

(** [simulateDataChanges()]: one pass over the greenhouse boxes, each given
    by the countdown its [data-days] attribute parses to; [random i] is the
    i-th value [Math.random()] returns, and the result carries the number
    of draws used.  A box that changes gets the new number written to its
    attribute, which is what the next pass reads. *)
Fixpoint simulateDataChanges (boxes : list countdown) (random : nat → Q)
    (i : nat) : list countdown * nat :=
  match boxes with
  | [] => ([], i)
  | currentDays :: rest =>
      if Qle_bool (1 # 10) (random i) then
        let '(rest', j) := simulateDataChanges rest random (S i) in
        (currentDays :: rest', j)
      else
        let '(rest', j) := simulateDataChanges rest random (S (S i)) in
        (new_days currentDays (random (S i)) :: rest', j)
  end.

(** [updateData()] every 30 seconds: [n] passes in a row. *)
Fixpoint updateData_times (n : nat) (boxes : list countdown) (random : nat → Q)
    (i : nat) : list countdown * nat :=
  match n with
  | 0 => (boxes, i)
  | S n' =>
      let '(boxes', j) := simulateDataChanges boxes random i in
      updateData_times n' boxes' random j
  end.

(** * Vocabulary of the further properties *)

Definition is_anomaly_message (e : event) : bool :=
  match e with
  | MqttMessage topic (Some _) _ => String.eqb topic anomaly_topic
  | _ => false
  end.

(** The snapshot a prediction message stores. *)
Definition prediction_of (e : event) : option object :=
  match e with
  | MqttMessage topic (Some data) c =>
      if String.eqb topic prediction_topic then
        Some (object_literal [Spread data; Field "timestamp" (VDate (handler_date c))])
      else None
  | _ => None
  end.

(** [{...data}]: the payload's properties as a spread copies them. *)
Definition spread_copy (data : value) : object :=
  copy_properties (own_entries data) [].

(** An anomaly payload the page reports: truthy, with [prediction] -1. *)
Definition reported_anomaly (e : event) : bool :=
  match e with
  | MqttMessage topic (Some data) _ =>
      String.eqb topic anomaly_topic
      && truthy data
      && strict_eq (prop_get "prediction" (own_entries data)) (VNum (-1))
  | _ => false
  end.

Definition is_anomaly_log (l : client_log) : bool :=
  match l with
  | AnomalyLogged _ => true
  | _ => false
  end.

Definition is_alert_display (l : client_log) : bool :=
  match l with
  | AlertDisplayed _ => true
  | _ => false
  end.

(** The record of a stored alert is well formed: it has an id, its
    [timestamp] is a date and its [acknowledged] a boolean. *)
Definition well_formed_alert (a : object) : Prop :=
  (∃ v, own "id" a = Some v)
  ∧ (∃ ms, own "timestamp" a = Some (VDate ms))
  ∧ (∃ b, own "acknowledged" a = Some (VBool b)).

Definition is_console_error (x : effect) : bool :=
  match x with
  | console_error _ _ => true
  | _ => false
  end.

(** How far a countdown may have moved after [n] passes: [NaN] stays
    [NaN]; a value of at least 1 stays between 1 and itself and loses at
    most [n]; a value below 1 is unchanged or has become 1. *)
Definition countdown_after (n : nat) (before after : countdown) : Prop :=
  match days before with
  | None => days after = None
  | Some m =>
      ∃ m', days after = Some m'
            ∧ (1 ≤ m → 1 ≤ m' ≤ m ∧ m - m' ≤ Z.of_nat n)%Z
            ∧ (m < 1 → m' = m ∨ m' = 1)%Z
  end.

(** * Properties *)

(** ** Objects *)

Section Objects.
Implicit Types (k : string) (v : value) (o : object).

Lemma own_prop_set k k' v o :
  own k' (prop_set k v o) = if String.eqb k k' then Some v else own k' o.
Proof.
  induction o as [|[k0 v0] o IH]; simpl.
  - destruct (String.eqb_spec k k'); reflexivity.
  - destruct (String.eqb_spec k0 k) as [->|Hne]; simpl.
    + destruct (String.eqb_spec k k'); reflexivity.
    + rewrite IH.
      destruct (String.eqb_spec k0 k'), (String.eqb_spec k k'); congruence.
Qed.

Lemma own_prop_set_eq k v o : own k (prop_set k v o) = Some v.
Proof. rewrite own_prop_set, String.eqb_refl. reflexivity. Qed.

Lemma own_prop_set_ne k k' v o :
  k ≠ k' → own k' (prop_set k v o) = own k' o.
Proof.
  intros Hne. rewrite own_prop_set.
  destruct (String.eqb_spec k k'); congruence.
Qed.

Lemma prop_get_prop_set_eq k v o : prop_get k (prop_set k v o) = v.
Proof. unfold prop_get. rewrite own_prop_set_eq. reflexivity. Qed.

Lemma prop_get_prop_set_ne k k' v o :
  k ≠ k' → prop_get k' (prop_set k v o) = prop_get k' o.
Proof. intros Hne. unfold prop_get. rewrite own_prop_set_ne; done. Qed.

Lemma own_None_keys k o : own k o = None ↔ k ∉ Object_keys o.
Proof.
  unfold Object_keys. induction o as [|[k0 v0] o IH]; simpl.
  - split; [intros _; apply not_elem_of_nil | done].
  - rewrite not_elem_of_cons. destruct (String.eqb_spec k0 k) as [->|Hne].
    + split; [done | intros [? _]; done].
    + rewrite IH. split; [intros ?; split; [congruence | done] | intros [_ ?]; done].
Qed.

Lemma prop_set_fresh k v o :
  k ∉ Object_keys o → prop_set k v o = (o ++ [(k, v)])%list.
Proof.
  unfold Object_keys. induction o as [|[k0 v0] o IH]; simpl; [done|].
  rewrite not_elem_of_cons. intros [Hne Hnin].
  destruct (String.eqb_spec k0 k); [congruence|]. rewrite IH; done.
Qed.

Lemma prop_set_keys_present k v o :
  k ∈ Object_keys o → Object_keys (prop_set k v o) = Object_keys o.
Proof.
  unfold Object_keys. induction o as [|[k0 v0] o IH]; simpl.
  - intros H. by apply elem_of_nil in H.
  - intros Hin. destruct (String.eqb_spec k0 k) as [->|Hne]; simpl; [done|].
    f_equal. apply IH. apply elem_of_cons in Hin as [?|?]; [congruence | done].
Qed.

Lemma length_prop_set_le k v o : length (prop_set k v o) ≤ S (length o).
Proof.
  induction o as [|[k0 v0] o IH]; simpl; [lia|].
  destruct (String.eqb k0 k); simpl; lia.
Qed.

Lemma length_prop_delete_le k o : length (prop_delete k o) ≤ length o.
Proof.
  induction o as [|[k0 v0] o IH]; simpl; [lia|].
  destruct (String.eqb k0 k); simpl; lia.
Qed.

Lemma prop_delete_absent k o : k ∉ Object_keys o → prop_delete k o = o.
Proof.
  unfold Object_keys. induction o as [|[k0 v0] o IH]; simpl; [done|].
  rewrite not_elem_of_cons. intros [Hne Hnin].
  destruct (String.eqb_spec k0 k); [congruence|]. rewrite IH; done.
Qed.

Lemma copy_properties_snoc src k v o :
  copy_properties (src ++ [(k, v)])%list o = prop_set k v (copy_properties src o).
Proof. unfold copy_properties. rewrite fold_left_app. reflexivity. Qed.

(** A spread overrides the properties it defines and keeps the others. *)
Lemma own_copy_properties k src o :
  own k (copy_properties src o) =
    match own k (copy_properties src []) with
    | Some v => Some v
    | None => own k o
    end.
Proof.
  induction src as [|[k0 v0] src IH] using rev_ind; [reflexivity|].
  rewrite !copy_properties_snoc, !own_prop_set.
  destruct (String.eqb k0 k); [reflexivity | exact IH].
Qed.

Lemma copy_properties_NoDup src :
  NoDup (Object_keys src) → copy_properties src [] = src.
Proof.
  induction src as [|[k0 v0] src IH] using rev_ind; [reflexivity|].
  unfold Object_keys. rewrite fmap_app, NoDup_app. simpl.
  intros (Hnd & Hnin & _). rewrite copy_properties_snoc, IH by done.
  apply prop_set_fresh. intros Hin. apply (Hnin _ Hin). apply list_elem_of_here.
Qed.
End Objects.

(** [v === "s"] holds for the string [s] only. *)
Lemma strict_eq_VStr (v : value) (s : string) :
  strict_eq v (VStr s) = true ↔ v = VStr s.
Proof.
  destruct v; simpl; try (split; [discriminate | discriminate]).
  rewrite String.eqb_eq. split; congruence.
Qed.

(** The identifiers are injective in the clock reading. *)
#[global] Instance sensor_key_inj : Inj (=) (=) sensor_key.
Proof. intros t t' H. unfold sensor_key in H. by simplify_eq. Qed.

#[global] Instance alert_key_inj : Inj (=) (=) alert_key.
Proof. intros t t' H. unfold alert_key in H. by simplify_eq. Qed.

(** ** Running a handler *)

Section Running.
Context {A B : Type}.
Implicit Types (k : A → M B) (d : dashboard).

Lemma result_eta (r : result B) :
  mkResult (outcome r) (store r) (sent r) = r.
Proof. destruct r; reflexivity. Qed.

Lemma bind_ret (a : A) k d : bind (ret a) k d = k a d.
Proof. unfold bind, ret; simpl. apply result_eta. Qed.

Lemma bind_throw (e : error) k d :
  bind (throw e) k d = mkResult (Thrown e) d [].
Proof. reflexivity. Qed.

Lemma bind_modify f (k : unit → M B) d : bind (modify f) k d = k tt (f d).
Proof. unfold bind, modify; simpl. apply result_eta. Qed.

Lemma bind_read (k : dashboard → M B) d : bind read k d = k d d.
Proof. unfold bind, read; simpl. apply result_eta. Qed.

Lemma bind_send (e : effect) (k : unit → M B) d :
  bind (send e) k d =
    mkResult (outcome (k tt d)) (store (k tt d)) (e :: sent (k tt d)).
Proof. reflexivity. Qed.
End Running.

Ltac exec :=
  repeat first
    [ rewrite bind_modify | rewrite bind_read | rewrite bind_ret
    | rewrite bind_throw | rewrite bind_send ];
  cbn [outcome store sent].

(** ** One step of each data handler *)

Lemma handleSensorData_eq data now_ms now d :
  handleSensorData data now_ms now d =
    mkResult (Normal tt)
      (set_sensors
         (fun o => keep_last_100 (prop_set (sensor_key now_ms) (sensor_record data now) o)) d)
      [].
Proof.
  unfold handleSensorData. exec. unfold keep_last_100, sensor_record, set_sensors.
  cbn [sensors]. destruct (100 <? _); [|reflexivity].
  destruct (Object_keys _); reflexivity.
Qed.

Lemma handleEmergencyAlert_eq data now_ms now d :
  nullish data = false →
  handleEmergencyAlert data now_ms now d =
    mkResult (Normal tt)
      (set_alerts keep_newest_50
         (set_statistics
            (fun s => if is_critical data then incr_criticalAlerts (incr_totalAlerts s)
                      else incr_totalAlerts s)
            (set_alerts (cons (new_alert data now_ms now)) d)))
      [io_emit "newAlert" (VObj (new_alert data now_ms now))].
Proof.
  intros Hdata. unfold handleEmergencyAlert. exec.
  assert (get_member data "severity" =
          ret (prop_get "severity" (own_entries data))) as ->
    by (destruct data; done).
  exec. fold (is_critical data).
  unfold keep_newest_50, set_alerts, set_statistics.
  destruct (is_critical data); exec; cbn [alerts statistics];
    destruct (50 <? _); exec; reflexivity.
Qed.

Lemma handleEmergencyAlert_throws data now_ms now d :
  nullish data = true →
  handleEmergencyAlert data now_ms now d =
    mkResult (Thrown TypeError)
      (set_statistics incr_totalAlerts
         (set_alerts (cons (new_alert data now_ms now)) d))
      [].
Proof.
  intros Hdata. unfold handleEmergencyAlert. exec.
  destruct data; try discriminate; reflexivity.
Qed.

Lemma handlePredictionData_eq data now d :
  handlePredictionData data now d =
    mkResult (Normal tt)
      (set_predictions (object_literal [Spread data; Field "timestamp" (VDate now)]) d)
      [].
Proof. reflexivity. Qed.

Lemma handleAnomalyData_eq data d :
  handleAnomalyData data d =
    mkResult (Normal tt) (set_statistics incr_anomaliesDetected d) [].
Proof. reflexivity. Qed.

(** ** One step of the message handler *)

Lemma on_message_decoded topic data c d :
  on_message topic (Some data) c d =
    let r := dispatch topic data c d in
    mkResult (Normal tt) (store r) (sent r ++ [after_dispatch topic data c (outcome r)]).
Proof.
  unfold on_message, try_catch, JSON_parse. rewrite bind_ret.
  unfold bind. destruct (dispatch topic data c d) as [[[]|e] d' out];
    simpl; reflexivity.
Qed.

Lemma on_message_malformed topic c d :
  on_message topic None c d =
    mkResult (Normal tt) d [console_error topic SyntaxError].
Proof. reflexivity. Qed.

Lemma topic_cases topic : topic_case topic.
Proof.
  destruct (String.eqb_spec topic sensor_topic) as [|H1]; [by apply topic_sensor|].
  destruct (String.eqb_spec topic alert_topic) as [|H2]; [by apply topic_alert|].
  destruct (String.eqb_spec topic prediction_topic) as [|H3]; [by apply topic_prediction|].
  destruct (String.eqb_spec topic anomaly_topic) as [|H4]; [by apply topic_anomaly|].
  apply topic_other; [|done..]. intros data c. unfold dispatch.
  apply String.eqb_neq in H1, H2, H3, H4. rewrite H1, H2, H3, H4. reflexivity.
Qed.

(** ** Looking an alert up by its id *)

Lemma find_alert_Some alertId l i :
  find_alert alertId l = Some i ↔
  ∃ a, l !! i = Some a ∧ has_id alertId a = true
       ∧ ∀ j b, j < i → l !! j = Some b → has_id alertId b = false.
Proof.
  unfold has_id. revert i. induction l as [|a0 l IH]; intros i; simpl.
  - split; [discriminate | intros (a & Ha & _); discriminate].
  - destruct (strict_eq (prop_get "id" a0) alertId) eqn:E0.
    + split.
      * intros [= <-]. exists a0. repeat split; [done|]. intros j b Hj. lia.
      * intros (a & Ha & Hid & Hfirst). destruct i as [|i]; [done|].
        specialize (Hfirst 0 a0 ltac:(lia) eq_refl). congruence.
    + destruct (find_alert alertId l) as [i'|] eqn:Ef; simpl.
      * split.
        -- intros [= <-]. destruct (proj1 (IH i') eq_refl) as (a & Ha & Hid & Hfirst).
           exists a. repeat split; [done..|]. intros [|j] b Hj Hb.
           ++ simpl in Hb. congruence.
           ++ apply (Hfirst j); [lia | done].
        -- intros (a & Ha & Hid & Hfirst). destruct i as [|i].
           ++ simpl in Ha. congruence.
           ++ f_equal. enough (Some i' = Some i) by congruence.
              apply IH. exists a. repeat split; [done..|]. intros j b Hj Hb.
              apply (Hfirst (S j)); [lia | done].
      * split; [discriminate|]. intros (a & Ha & Hid & Hfirst).
        destruct i as [|i]; [simpl in Ha; congruence|].
        enough (None = Some i) by discriminate.
        apply IH. exists a. repeat split; [done..|]. intros j b Hj Hb.
        apply (Hfirst (S j)); [lia | done].
Qed.

Lemma find_alert_None alertId l :
  find_alert alertId l = None ↔ ∀ a, a ∈ l → has_id alertId a = false.
Proof.
  unfold has_id. induction l as [|a0 l IH]; simpl.
  - split; [intros _ a Ha; by apply elem_of_nil in Ha | done].
  - destruct (strict_eq (prop_get "id" a0) alertId) eqn:E0.
    + split; [discriminate|]. intros H.
      specialize (H a0 (list_elem_of_here _ _)). congruence.
    + destruct (find_alert alertId l) as [i'|]; simpl.
      * split; [discriminate|]. intros H.
        enough (Some i' = None) by discriminate.
        apply IH. intros a Ha. apply H. by apply list_elem_of_further.
      * split; [|done]. intros _ a [->|Ha]%elem_of_cons; [done|].
        by apply (proj1 IH).
Qed.

(** A write that leaves the ids alone does not change what [find] returns. *)
Lemma find_alert_alter alertId f l i :
  (∀ a, prop_get "id" (f a) = prop_get "id" a) →
  find_alert alertId (alter f i l) = find_alert alertId l.
Proof.
  intros Hf. revert i. induction l as [|a0 l IH]; intros [|i]; try done.
  - simpl. rewrite Hf. reflexivity.
  - change (alter f (S i) (a0 :: l)) with (a0 :: alter f i l).
    simpl. rewrite IH. reflexivity.
Qed.

(** ** One step of the acknowledgment handlers *)

Lemma bind_assoc {A B C} (m : M A) (k1 : A → M B) (k2 : B → M C) d :
  bind (bind m k1) k2 d = bind m (fun a => bind (k1 a) k2) d.
Proof.
  unfold bind. destruct (m d) as [[a|e] d1 o1]; simpl; [|reflexivity].
  destruct (k1 a d1) as [[b|e] d2 o2]; simpl; [|reflexivity].
  destruct (k2 b d2) as [oc d3 o3]; simpl. by rewrite app_assoc.
Qed.

Lemma post_acknowledge_found alertId now d i a :
  find_alert (VStr alertId) (alerts d) = Some i →
  alerts d !! i = Some a →
  post_acknowledge alertId now d =
    mkResult (Normal tt) (set_alerts (alter (acknowledge_at now) i) d)
      [ok_response (acknowledge_at now a)].
Proof.
  intros Hfind Ha. unfold post_acknowledge, assign_alert, deref_alert.
  rewrite bind_read, Hfind. exec. rewrite bind_assoc. exec.
  unfold send, ok_response, set_alerts; cbn [alerts].
  rewrite list_alter_alter_eq. do 2 f_equal.
  rewrite list_lookup_alter_eq, Ha. reflexivity.
Qed.

Lemma post_acknowledge_not_found alertId now d :
  find_alert (VStr alertId) (alerts d) = None →
  post_acknowledge alertId now d = mkResult (Normal tt) d [not_found_response].
Proof.
  intros Hfind. unfold post_acknowledge. rewrite bind_read, Hfind. reflexivity.
Qed.

Lemma on_acknowledgeAlert_found alertId d i :
  find_alert alertId (alerts d) = Some i →
  on_acknowledgeAlert alertId d =
    mkResult (Normal tt)
      (set_alerts (alter (prop_set "acknowledged" (VBool true)) i) d)
      [io_emit "alertAcknowledged" alertId].
Proof.
  intros Hfind. unfold on_acknowledgeAlert, assign_alert.
  rewrite bind_read, Hfind. exec. reflexivity.
Qed.

Lemma on_acknowledgeAlert_not_found alertId d :
  find_alert alertId (alerts d) = None →
  on_acknowledgeAlert alertId d = mkResult (Normal tt) d [].
Proof.
  intros Hfind. unfold on_acknowledgeAlert. rewrite bind_read, Hfind. reflexivity.
Qed.


(** ** The handlers never throw out of the event loop *)

Lemma handle_completes e d : outcome (handle e d) = Normal tt.
Proof.
  destruct e as [topic [data|] c| |alertId now|socket|socket|socket alertId|socket];
    simpl handle; try reflexivity.
  - rewrite on_message_decoded. reflexivity.
  - destruct (find_alert (VStr alertId) (alerts d)) as [i|] eqn:Hfind.
    + destruct (proj1 (find_alert_Some _ _ _) Hfind) as (a & Ha & _).
      by rewrite (post_acknowledge_found _ _ _ _ _ Hfind Ha).
    + by rewrite post_acknowledge_not_found.
  - destruct (find_alert alertId (alerts d)) as [i|] eqn:Hfind.
    + by rewrite (on_acknowledgeAlert_found _ _ _ Hfind).
    + by rewrite on_acknowledgeAlert_not_found.
Qed.

(** ** Malformed payloads *)

(** C5: a bus message whose payload does not parse, on any topic, leaves the
    store as it was, sends nothing to any subscriber, logs the failure, and
    the handler completes, so the events that follow are served from the
    unchanged store. *)
Theorem malformed_message_is_dropped (topic : string) (c : clock)
    (d : dashboard) (es : list event) :
  handle (MqttMessage topic None c) d =
    mkResult (Normal tt) d [console_error topic SyntaxError]
  ∧ run (MqttMessage topic None c :: es) d = run es d
  ∧ trace (MqttMessage topic None c :: es) d =
      console_error topic SyntaxError :: trace es d.
Proof. repeat split. Qed.

(** ** The acknowledge route *)

(** C4: the acknowledge route answers 404 and leaves the store untouched
    when no alert of the list has the named id; when one has, it answers
    with success and the updated alert record, which is the one now stored. *)
Theorem acknowledge_route_not_found_or_updated (alertId : string) (now : Z)
    (d : dashboard) :
  let r := handle (PostAcknowledge alertId now) d in
  ((∀ a, a ∈ alerts d → prop_get "id" a ≠ VStr alertId) →
     r = mkResult (Normal tt) d [not_found_response])
  ∧ ((∃ a, a ∈ alerts d ∧ prop_get "id" a = VStr alertId) →
     ∃ i a',
       outcome r = Normal tt
       ∧ sent r = [ok_response a']
       ∧ alerts (store r) !! i = Some a'
       ∧ prop_get "id" a' = VStr alertId
       ∧ prop_get "acknowledged" a' = VBool true
       ∧ prop_get "acknowledgedAt" a' = VDate now).
Proof.
  cbv zeta. unfold handle. split.
  - intros Habsent. apply post_acknowledge_not_found, find_alert_None.
    intros a Ha. unfold has_id.
    destruct (strict_eq _ _) eqn:E; [|reflexivity].
    apply strict_eq_VStr in E. by apply Habsent in E.
  - intros (a & Hin & Hid).
    destruct (find_alert (VStr alertId) (alerts d)) as [i|] eqn:Hfind.
    + destruct (proj1 (find_alert_Some _ _ _) Hfind) as (b & Hb & Hidb & _).
      rewrite (post_acknowledge_found _ _ _ _ _ Hfind Hb).
      exists i, (acknowledge_at now b). cbn [outcome sent store set_alerts alerts].
      rewrite list_lookup_alter_eq, Hb. repeat split.
      * unfold acknowledge_at. rewrite !prop_get_prop_set_ne by done.
        by apply strict_eq_VStr.
      * unfold acknowledge_at.
        rewrite prop_get_prop_set_ne by done. apply prop_get_prop_set_eq.
      * apply prop_get_prop_set_eq.
    + apply (proj1 (find_alert_None _ _)) with (a := a) in Hfind; [|done].
      unfold has_id in Hfind. rewrite Hid in Hfind. simpl in Hfind.
      by rewrite String.eqb_refl in Hfind.
Qed.

Lemma one_alert_alerts :
  alerts one_alert =
    [[("id", VStr "alert_5"); ("severity", VStr "CRITICAL");
      ("timestamp", VDate 5); ("acknowledged", VBool false)]].
Proof. vm_compute. reflexivity. Qed.

Lemma acknowledge_route_witness :
  handle (PostAcknowledge "alert_4" 7) one_alert =
    mkResult (Normal tt) one_alert [not_found_response]
  ∧ ∃ i a',
      outcome (handle (PostAcknowledge "alert_5" 7) one_alert) = Normal tt
      ∧ sent (handle (PostAcknowledge "alert_5" 7) one_alert) = [ok_response a']
      ∧ alerts (store (handle (PostAcknowledge "alert_5" 7) one_alert)) !! i = Some a'
      ∧ prop_get "id" a' = VStr "alert_5"
      ∧ prop_get "acknowledged" a' = VBool true
      ∧ prop_get "acknowledgedAt" a' = VDate 7.
Proof.
  split.
  - apply (proj1 (acknowledge_route_not_found_or_updated "alert_4" 7 one_alert)).
    intros a Ha. rewrite one_alert_alerts in Ha.
    apply list_elem_of_singleton in Ha. subst a. vm_compute. discriminate.
  - apply (proj2 (acknowledge_route_not_found_or_updated "alert_5" 7 one_alert)).
    eexists. rewrite one_alert_alerts. split; [apply list_elem_of_here|].
    vm_compute. reflexivity.
Defined.

(** C3, as stated, fails: a second acknowledgment of the same alert replaces
    the recorded acknowledgment timestamp. *)
Lemma second_acknowledge_changes_timestamp :
  let r1 := handle (PostAcknowledge "alert_5" 7) one_alert in
  let r2 := handle (PostAcknowledge "alert_5" 9) (store r1) in
  (own "acknowledgedAt" <$> alerts (store r1)) = [Some (VDate 7)]
  ∧ (own "acknowledgedAt" <$> alerts (store r2)) = [Some (VDate 9)]
  ∧ store r2 ≠ store r1
  ∧ sent r2 ≠ sent r1.
Proof.
  cbv zeta. split; [vm_compute; reflexivity|]. split; [vm_compute; reflexivity|].
  split; vm_compute; discriminate.
Qed.

(** C3, amended: acknowledging an existing alert through the route sets
    [acknowledged] to true and records the time of the call; a second
    acknowledgment of the same id succeeds again on the same alert, which
    stays acknowledged, and replaces the recorded time by that of the second
    call, every other property and every other alert being left as they
    were. *)
Theorem acknowledge_twice (alertId : string) (t1 t2 : Z) (d : dashboard)
    (i : nat) (a : object) :
  find_alert (VStr alertId) (alerts d) = Some i →
  alerts d !! i = Some a →
  let r1 := handle (PostAcknowledge alertId t1) d in
  let r2 := handle (PostAcknowledge alertId t2) (store r1) in
  let a1 := acknowledge_at t1 a in
  let a2 := acknowledge_at t2 a1 in
  r1 = mkResult (Normal tt) (set_alerts (fun l => <[i:=a1]> l) d) [ok_response a1]
  ∧ r2 = mkResult (Normal tt) (set_alerts (fun l => <[i:=a2]> l) d) [ok_response a2]
  ∧ prop_get "acknowledged" a1 = VBool true
  ∧ prop_get "acknowledgedAt" a1 = VDate t1
  ∧ prop_get "acknowledged" a2 = VBool true
  ∧ prop_get "acknowledgedAt" a2 = VDate t2
  ∧ (∀ k, k ≠ "acknowledgedAt" → own k a2 = own k a1)
  ∧ (∀ k, k ≠ "acknowledgedAt" → k ≠ "acknowledged" → own k a1 = own k a).
Proof.
  intros Hfind Ha. cbv zeta. unfold handle.
  assert (∀ t (l : list object), l !! i = Some a →
            alter (acknowledge_at t) i l = <[i:=acknowledge_at t a]> l) as Halter.
  { intros t l Hl. rewrite list_insert_alter.
    apply list_alter_ext; [|done]. intros x Hx. congruence. }
  rewrite (post_acknowledge_found _ _ _ _ _ Hfind Ha). cbn [store].
  assert (find_alert (VStr alertId)
            (alerts (set_alerts (alter (acknowledge_at t1) i) d)) = Some i) as Hfind'.
  { cbn [alerts set_alerts]. rewrite find_alert_alter; [done|].
    intros x. unfold acknowledge_at. by rewrite !prop_get_prop_set_ne. }
  assert (alerts (set_alerts (alter (acknowledge_at t1) i) d) !! i =
          Some (acknowledge_at t1 a)) as Ha'.
  { cbn [alerts set_alerts]. by rewrite list_lookup_alter_eq, Ha. }
  rewrite (post_acknowledge_found _ _ _ _ _ Hfind' Ha').
  repeat split.
  - unfold set_alerts. by rewrite (Halter t1 _ Ha).
  - unfold set_alerts; cbn [alerts sensors predictions systemStatus statistics].
    rewrite list_alter_alter_eq. do 3 f_equal.
    rewrite list_insert_alter. apply list_alter_ext; [|done].
    intros x Hx. simpl. congruence.
  - unfold acknowledge_at. rewrite prop_get_prop_set_ne by done.
    apply prop_get_prop_set_eq.
  - apply prop_get_prop_set_eq.
  - unfold acknowledge_at at 1. rewrite prop_get_prop_set_ne by done.
    apply prop_get_prop_set_eq.
  - apply prop_get_prop_set_eq.
  - intros k Hk. unfold acknowledge_at at 1.
    rewrite own_prop_set_ne by done. rewrite own_prop_set.
    destruct (String.eqb_spec "acknowledged" k) as [<-|]; [|reflexivity].
    unfold acknowledge_at. rewrite own_prop_set_ne by done.
    by rewrite own_prop_set_eq.
  - intros k Hk Hk'. unfold acknowledge_at.
    rewrite !own_prop_set_ne by done. reflexivity.
Qed.

Lemma acknowledge_twice_witness :
  let a := [("id", VStr "alert_5"); ("severity", VStr "CRITICAL");
            ("timestamp", VDate 5); ("acknowledged", VBool false)] in
  handle (PostAcknowledge "alert_5" 9)
    (store (handle (PostAcknowledge "alert_5" 7) one_alert)) =
  mkResult (Normal tt)
    (set_alerts (fun l => <[0:=acknowledge_at 9 (acknowledge_at 7 a)]> l) one_alert)
    [ok_response (acknowledge_at 9 (acknowledge_at 7 a))].
Proof.
  intros a.
  refine (proj1 (proj2 (acknowledge_twice "alert_5" 7 9 one_alert 0 a _ _)));
    vm_compute; reflexivity.
Defined.

(** ** The subscriber acknowledgment *)

(** C10: when [find] returns an alert, the [acknowledgeAlert] handler sets
    its [acknowledged] property to true and writes nothing else, so the
    [acknowledgedAt] property is what it was (absent if it was absent), and
    it broadcasts one [alertAcknowledged] event whose payload is the id
    alone; when no alert has the id, the store is unchanged and nothing is
    sent. *)
Theorem socket_acknowledge_sets_flag_only (socket : nat) (alertId : value)
    (d : dashboard) :
  let r := handle (AcknowledgeAlert socket alertId) d in
  ((∃ a, a ∈ alerts d ∧ has_id alertId a = true) →
     ∃ i a,
       alerts d !! i = Some a
       ∧ has_id alertId a = true
       ∧ r = mkResult (Normal tt)
               (set_alerts
                  (fun l => <[i:=prop_set "acknowledged" (VBool true) a]> l) d)
               [io_emit "alertAcknowledged" alertId]
       ∧ prop_get "acknowledged" (prop_set "acknowledged" (VBool true) a) = VBool true
       ∧ own "acknowledgedAt" (prop_set "acknowledged" (VBool true) a) =
           own "acknowledgedAt" a
       ∧ ∀ k, k ≠ "acknowledged" →
           own k (prop_set "acknowledged" (VBool true) a) = own k a)
  ∧ ((∀ a, a ∈ alerts d → has_id alertId a = false) →
     r = mkResult (Normal tt) d []).
Proof.
  cbv zeta. unfold handle. split.
  - intros (a & Hin & Hid).
    destruct (find_alert alertId (alerts d)) as [i|] eqn:Hfind.
    + destruct (proj1 (find_alert_Some _ _ _) Hfind) as (b & Hb & Hidb & _).
      exists i, b. rewrite (on_acknowledgeAlert_found _ _ _ Hfind).
      repeat split; try done.
      * unfold set_alerts. do 3 f_equal. rewrite list_insert_alter.
        apply list_alter_ext; [|done]. intros x Hx. congruence.
      * apply prop_get_prop_set_eq.
      * by rewrite own_prop_set_ne.
      * intros k Hk. by rewrite own_prop_set_ne.
    + apply (proj1 (find_alert_None _ _)) with (a := a) in Hfind; [|done].
      congruence.
  - intros Habsent. apply on_acknowledgeAlert_not_found, find_alert_None, Habsent.
Qed.

Lemma socket_acknowledge_witness :
  (∃ i a,
     alerts one_alert !! i = Some a
     ∧ has_id (VStr "alert_5") a = true
     ∧ handle (AcknowledgeAlert 1 (VStr "alert_5")) one_alert =
         mkResult (Normal tt)
           (set_alerts
              (fun l => <[i:=prop_set "acknowledged" (VBool true) a]> l) one_alert)
           [io_emit "alertAcknowledged" (VStr "alert_5")]
     ∧ prop_get "acknowledged" (prop_set "acknowledged" (VBool true) a) = VBool true
     ∧ own "acknowledgedAt" (prop_set "acknowledged" (VBool true) a) =
         own "acknowledgedAt" a
     ∧ ∀ k, k ≠ "acknowledged" →
         own k (prop_set "acknowledged" (VBool true) a) = own k a)
  ∧ handle (AcknowledgeAlert 1 (VNum 5)) one_alert =
      mkResult (Normal tt) one_alert [].
Proof.
  split.
  - apply (proj1 (socket_acknowledge_sets_flag_only 1 (VStr "alert_5") one_alert)).
    eexists. rewrite one_alert_alerts. split; [apply list_elem_of_here|].
    vm_compute. reflexivity.
  - apply (proj2 (socket_acknowledge_sets_flag_only 1 (VNum 5) one_alert)).
    intros a Ha. rewrite one_alert_alerts in Ha.
    apply list_elem_of_singleton in Ha. subst a. vm_compute. reflexivity.
Defined.

(** ** Sequences of events: the alert list and the counters *)

Lemma dispatch_sensor data c :
  dispatch sensor_topic data c = handleSensorData data (date_now c) (handler_date c).
Proof. reflexivity. Qed.

Lemma dispatch_alert data c :
  dispatch alert_topic data c =
    handleEmergencyAlert data (date_now c) (handler_date c).
Proof. reflexivity. Qed.

Lemma dispatch_prediction data c :
  dispatch prediction_topic data c = handlePredictionData data (handler_date c).
Proof. reflexivity. Qed.

Lemma dispatch_anomaly data c :
  dispatch anomaly_topic data c = handleAnomalyData data.
Proof. reflexivity. Qed.

Lemma handle_alerts e d : alerts (store (handle e d)) = next_alerts e (alerts d).
Proof.
  destruct e as [topic [data|] c| |alertId now|socket|socket|socket alertId|socket];
    try reflexivity.
  - cbn [handle next_alerts]. rewrite on_message_decoded. cbn [store].
    destruct (topic_cases topic) as [->| ->| ->| ->|Hother Hs Ha].
    + rewrite dispatch_sensor, handleSensorData_eq. reflexivity.
    + rewrite dispatch_alert. destruct (nullish data) eqn:Hnull.
      * rewrite handleEmergencyAlert_throws by done. reflexivity.
      * rewrite handleEmergencyAlert_eq by done. reflexivity.
    + reflexivity.
    + reflexivity.
    + rewrite Hother. apply String.eqb_neq in Ha. rewrite Ha. reflexivity.
  - cbn [handle next_alerts].
    destruct (find_alert (VStr alertId) (alerts d)) as [i|] eqn:Hfind.
    + destruct (proj1 (find_alert_Some _ _ _) Hfind) as (a & Ha & _).
      by rewrite (post_acknowledge_found _ _ _ _ _ Hfind Ha).
    + by rewrite post_acknowledge_not_found.
  - cbn [handle next_alerts].
    destruct (find_alert alertId (alerts d)) as [i|] eqn:Hfind.
    + by rewrite (on_acknowledgeAlert_found _ _ _ Hfind).
    + by rewrite on_acknowledgeAlert_not_found.
Qed.

(** The counters after one event. *)
Lemma handle_statistics e d :
  totalAlerts (statistics (store (handle e d))) =
    totalAlerts (statistics d) + (if is_alert_ingestion e then 1 else 0)
  ∧ criticalAlerts (statistics (store (handle e d))) =
    criticalAlerts (statistics d) + (if is_critical_ingestion e then 1 else 0).
Proof.
  unfold is_alert_ingestion, is_critical_ingestion.
  destruct e as [topic [data|] c| |alertId now|socket|socket|socket alertId|socket];
    cbn [handle alert_payload]; try (simpl; lia).
  - rewrite on_message_decoded. cbn [store].
    destruct (topic_cases topic) as [->| ->| ->| ->|Hother Hs Ha].
    + rewrite dispatch_sensor, handleSensorData_eq. simpl. lia.
    + rewrite dispatch_alert. change (String.eqb alert_topic alert_topic) with true.
      cbn iota. destruct (nullish data) eqn:Hnull.
      * rewrite handleEmergencyAlert_throws by done.
        assert (is_critical data = false) as -> by (destruct data; done).
        simpl. lia.
      * rewrite handleEmergencyAlert_eq by done.
        destruct (is_critical data); simpl; lia.
    + simpl. lia.
    + simpl. lia.
    + rewrite Hother. apply String.eqb_neq in Ha. rewrite Ha. simpl. lia.
  - destruct (find_alert (VStr alertId) (alerts d)) as [i|] eqn:Hfind.
    + destruct (proj1 (find_alert_Some _ _ _) Hfind) as (a & Ha & _).
      rewrite (post_acknowledge_found _ _ _ _ _ Hfind Ha). simpl. lia.
    + rewrite post_acknowledge_not_found by done. simpl. lia.
  - destruct (find_alert alertId (alerts d)) as [i|] eqn:Hfind.
    + rewrite (on_acknowledgeAlert_found _ _ _ Hfind). simpl. lia.
    + rewrite on_acknowledgeAlert_not_found by done. simpl. lia.
Qed.

Lemma run_app es1 es2 d : run (es1 ++ es2) d = run es2 (run es1 d).
Proof. revert d. induction es1 as [|e es1 IH]; intros d; simpl; [done|]. apply IH. Qed.

Lemma count_events_cons p e es :
  count_events p (e :: es) = (if p e then 1 else 0) + count_events p es.
Proof. unfold count_events. simpl. destruct (p e); reflexivity. Qed.

Lemma run_statistics es d :
  totalAlerts (statistics (run es d)) =
    totalAlerts (statistics d) + count_events is_alert_ingestion es
  ∧ criticalAlerts (statistics (run es d)) =
    criticalAlerts (statistics d) + count_events is_critical_ingestion es.
Proof.
  revert d. induction es as [|e es IH]; intros d.
  - unfold count_events. simpl. lia.
  - simpl run. rewrite !count_events_cons.
    destruct (IH (store (handle e d))) as [-> ->].
    destruct (handle_statistics e d) as [-> ->]. lia.
Qed.

Lemma critical_is_alert_ingestion e :
  is_critical_ingestion e = true → is_alert_ingestion e = true.
Proof.
  unfold is_critical_ingestion, is_alert_ingestion.
  destruct (alert_payload e) as [[data c]|]; done.
Qed.

Lemma count_critical_le es :
  count_events is_critical_ingestion es ≤ count_events is_alert_ingestion es.
Proof.
  induction es as [|e es IH]; [done|]. rewrite !count_events_cons.
  pose proof (critical_is_alert_ingestion e) as H.
  destruct (is_critical_ingestion e); [rewrite H by done|];
    destruct (is_alert_ingestion e); lia.
Qed.

(** C7: from the start of the process, [criticalAlerts] is the number of
    ingested alerts whose [severity] is ['CRITICAL'] and [totalAlerts] the
    number of ingested alerts, whatever was truncated from the list, so
    [criticalAlerts] never exceeds [totalAlerts]. *)
Theorem critical_counter_counts_critical_ingestions (boot : Z) (es : list event) :
  let d := run es (dashboardData boot) in
  criticalAlerts (statistics d) = count_events is_critical_ingestion es
  ∧ totalAlerts (statistics d) = count_events is_alert_ingestion es
  ∧ criticalAlerts (statistics d) ≤ totalAlerts (statistics d).
Proof.
  cbv zeta. destruct (run_statistics es (dashboardData boot)) as [-> ->].
  simpl. pose proof (count_critical_le es). lia.
Qed.

(** ** The acknowledged flag along a run *)

Lemma same_alert_refl a : same_alert a a.
Proof. intros k _ _. reflexivity. Qed.

Lemma same_alert_trans a b c : same_alert a b → same_alert b c → same_alert a c.
Proof. intros Hab Hbc k H1 H2. rewrite (Hbc k H1 H2). by apply Hab. Qed.

Lemma same_alert_acknowledge_at now a : same_alert a (acknowledge_at now a).
Proof.
  intros k H1 H2. unfold acknowledge_at. by rewrite !own_prop_set_ne.
Qed.

Lemma same_alert_set_acknowledged a :
  same_alert a (prop_set "acknowledged" (VBool true) a).
Proof. intros k H1 H2. by rewrite own_prop_set_ne. Qed.

Lemma acknowledged_acknowledge_at now a : acknowledged (acknowledge_at now a).
Proof.
  unfold acknowledged, acknowledge_at.
  rewrite prop_get_prop_set_ne by done. apply prop_get_prop_set_eq.
Qed.

Lemma keep_newest_50_take l : keep_newest_50 l = take 50 l.
Proof.
  unfold keep_newest_50. destruct (Nat.ltb_spec 50 (length l)); [done|].
  by rewrite take_ge.
Qed.

(** After one event an alert sits one place further when an alert was
    ingested, at the same place otherwise, and is still acknowledged if it
    was. *)
Lemma next_alerts_descends e (l : list object) j a' :
  next_alerts e l !! (j + (if is_alert_ingestion e then 1 else 0)) = Some a' →
  ∃ a, l !! j = Some a ∧ same_alert a a' ∧ (acknowledged a → acknowledged a').
Proof.
  assert (∀ a, l !! j = Some a →
            ∃ a0, l !! j = Some a0 ∧ same_alert a0 a
                  ∧ (acknowledged a0 → acknowledged a)) as Hsame.
  { intros a Ha. exists a. split; [done|]. split; [apply same_alert_refl | done]. }
  unfold is_alert_ingestion.
  destruct e as [topic [data|] c| |alertId now|socket|socket|socket alertId|socket];
    cbn [next_alerts alert_payload]; rewrite ?Nat.add_0_r; try apply Hsame.
  - destruct (String.eqb topic alert_topic); rewrite ?Nat.add_0_r; [|apply Hsame].
    rewrite Nat.add_1_r. intros Hl. apply Hsame.
    destruct (nullish data); [exact Hl|].
    rewrite keep_newest_50_take in Hl.
    apply lookup_take_Some in Hl as [Hl _]. exact Hl.
  - destruct (find_alert (VStr alertId) l) as [i|]; [|apply Hsame].
    rewrite list_lookup_alter. case_decide as Hi; [subst i|apply Hsame].
    destruct (l !! j) as [a|]; [|discriminate]. intros [= <-].
    exists a. split; [done|]. split; [apply same_alert_acknowledge_at|].
    intros _. apply acknowledged_acknowledge_at.
  - destruct (find_alert alertId l) as [i|]; [|apply Hsame].
    rewrite list_lookup_alter. case_decide as Hi; [subst i|apply Hsame].
    destruct (l !! j) as [a|]; [|discriminate]. intros [= <-].
    exists a. split; [done|]. split; [apply same_alert_set_acknowledged|].
    intros _. apply prop_get_prop_set_eq.
Qed.

(** C8: an alert stored at position [i] and acknowledged is, after any
    sequence of events (messages on any topic, route and subscriber
    acknowledgments, connections and reads), still acknowledged wherever it
    is still stored, that is at position [i] plus the number of alerts
    ingested since; the record there differs from the original in the
    acknowledgment properties at most. *)
Theorem acknowledged_never_reverts (es : list event) (d : dashboard)
    (i : nat) (a a' : object) :
  alerts d !! i = Some a →
  acknowledged a →
  alerts (run es d) !! (i + count_events is_alert_ingestion es) = Some a' →
  acknowledged a' ∧ same_alert a a'.
Proof.
  revert d i a. induction es as [|e es IH]; intros d i a Ha Hack.
  - unfold count_events. simpl. rewrite Nat.add_0_r, Ha. intros [= <-].
    split; [done | apply same_alert_refl].
  - simpl run. rewrite count_events_cons, Nat.add_assoc. intros Hlast.
    destruct (alerts (store (handle e d))
                !! (i + (if is_alert_ingestion e then 1 else 0))) as [a1|] eqn:H1.
    + pose proof H1 as H1'. rewrite handle_alerts in H1'.
      apply next_alerts_descends in H1' as (a0 & Ha0 & Hsame & Hkeep).
      assert (a0 = a) as -> by congruence.
      destruct (IH _ _ _ H1 (Hkeep Hack) Hlast) as [Hack' Hsame'].
      split; [done|]. by apply same_alert_trans with a1.
    + exfalso. clear IH Ha Hack.
      assert (∀ es d j, alerts d !! j = None →
                alerts (run es d) !! (j + count_events is_alert_ingestion es) = None)
        as Hgone.
      { clear. induction es as [|e es IH]; intros d j Hj.
        - unfold count_events. simpl. by rewrite Nat.add_0_r.
        - simpl run. rewrite count_events_cons, Nat.add_assoc. apply IH.
          destruct (alerts (store (handle e d)) !! _) as [a1|] eqn:H1; [|done].
          rewrite handle_alerts in H1.
          apply next_alerts_descends in H1 as (a0 & Ha0 & _). congruence. }
      rewrite (Hgone _ _ _ H1) in Hlast. discriminate.
Qed.

Lemma acknowledged_never_reverts_witness :
  let d := store (handle (PostAcknowledge "alert_5" 7) one_alert) in
  let es := [MqttMessage alert_topic (Some VNull) (mkClock 8 8 8);
             AcknowledgeAlert 1 (VStr "alert_5");
             MqttMessage alert_topic (Some (VObj [])) (mkClock 9 9 9)] in
  ∃ a a',
    alerts d !! 0 = Some a
    ∧ alerts (run es d) !! 2 = Some a'
    ∧ acknowledged a' ∧ same_alert a a'.
Proof.
  intros d es. eexists _, _.
  split; [vm_compute; reflexivity|]. split; [vm_compute; reflexivity|].
  apply (acknowledged_never_reverts es d 0); vm_compute; reflexivity.
Defined.

(** ** The bounded alert list *)

Lemma ingested_cons e es : ingested (e :: es) = created e ++ ingested es.
Proof.
  unfold ingested, created. simpl. destruct (alert_payload e) as [[data c]|]; done.
Qed.

Lemma next_alerts_newest_first e hist (l : list object) :
  (∀ data c, alert_payload e = Some (data, c) → nullish data = false) →
  Forall2 same_alert (take 50 hist) l →
  Forall2 same_alert (take 50 (created e ++ hist)) (next_alerts e l).
Proof.
  intros Hdef Hl. unfold created.
  destruct e as [topic [data|] c| |alertId now|socket|socket|socket alertId|socket];
    cbn [next_alerts alert_payload] in *; try exact Hl.
  - destruct (String.eqb topic alert_topic); [|exact Hl].
    rewrite (Hdef data c eq_refl), keep_newest_50_take.
    change 50 with (S 49). simpl. constructor; [apply same_alert_refl|].
    apply (Forall2_take _ _ _ 49) in Hl. rewrite take_take in Hl.
    exact Hl.
  - destruct (find_alert (VStr alertId) l) as [i|]; [|exact Hl].
    apply Forall2_alter_r; [exact Hl|]. intros x y _ _ Hxy.
    apply same_alert_trans with y; [done | apply same_alert_acknowledge_at].
  - destruct (find_alert alertId l) as [i|]; [|exact Hl].
    apply Forall2_alter_r; [exact Hl|]. intros x y _ _ Hxy.
    apply same_alert_trans with y; [done | apply same_alert_set_acknowledged].
Qed.

Lemma run_newest_first es hist d :
  alert_payloads_defined es →
  Forall2 same_alert (take 50 hist) (alerts d) →
  Forall2 same_alert (take 50 (reverse (ingested es) ++ hist)) (alerts (run es d)).
Proof.
  revert hist d. induction es as [|e es IH]; intros hist d Hdef Hd; [exact Hd|].
  simpl run. rewrite ingested_cons, reverse_app, <- app_assoc.
  apply IH.
  - intros e' data c He'. apply Hdef. by apply list_elem_of_further.
  - rewrite handle_alerts.
    assert (reverse (created e) = created e) as ->.
    { unfold created. destruct (alert_payload e) as [[data c]|]; reflexivity. }
    apply next_alerts_newest_first; [|exact Hd].
    intros data c He. apply (Hdef e data c); [apply list_elem_of_here | exact He].
Qed.

(** The part of C2 the code keeps: as long as no alert payload is [null],
    the list is the newest 50 ingested alerts, newest first, each up to its
    acknowledgment, and [totalAlerts] counts every ingestion. *)
Theorem alerts_newest_50_when_payloads_defined (boot : Z) (es : list event) :
  alert_payloads_defined es →
  let d := run es (dashboardData boot) in
  Forall2 same_alert (take 50 (reverse (ingested es))) (alerts d)
  ∧ length (alerts d) ≤ 50
  ∧ totalAlerts (statistics d) = length (ingested es).
Proof.
  intros Hdef. cbv zeta.
  assert (Forall2 same_alert (take 50 (reverse (ingested es)))
            (alerts (run es (dashboardData boot)))) as H.
  { pose proof (run_newest_first es [] (dashboardData boot) Hdef) as H.
    rewrite app_nil_r in H. apply H. simpl. constructor. }
  split; [exact H|]. split.
  - apply Forall2_length in H. rewrite <- H, length_take. lia.
  - destruct (run_statistics es (dashboardData boot)) as [-> _]. simpl. clear.
    induction es as [|e es IH]; [done|].
    rewrite count_events_cons, ingested_cons, length_app, <- IH.
    unfold is_alert_ingestion, created.
    destruct (alert_payload e) as [[data c]|]; reflexivity.
Qed.

(** C2, on the failing input: the [null] payload is prepended and counted,
    then [data.severity] throws, and the truncation is skipped: the list
    holds 51 alerts. *)
Theorem null_alert_skips_truncation :
  let d := run fifty_alerts (dashboardData 0) in
  let r := handle null_alert d in
  length (alerts d) = 50
  ∧ length (alerts (store r)) = 51
  ∧ totalAlerts (statistics (store r)) = 51
  ∧ sent r = [console_error alert_topic TypeError].
Proof. vm_compute. repeat split. Qed.

(** ** The bounded sensor store *)

Lemma handle_sensors e d : sensors (store (handle e d)) = next_sensors e (sensors d).
Proof.
  destruct e as [topic [data|] c| |alertId now|socket|socket|socket alertId|socket];
    try reflexivity.
  - cbn [handle next_sensors]. rewrite on_message_decoded. cbn [store].
    destruct (topic_cases topic) as [->| ->| ->| ->|Hother Hs Ha].
    + rewrite dispatch_sensor, handleSensorData_eq. reflexivity.
    + rewrite dispatch_alert. destruct (nullish data) eqn:Hnull.
      * rewrite handleEmergencyAlert_throws by done. reflexivity.
      * rewrite handleEmergencyAlert_eq by done. reflexivity.
    + reflexivity.
    + reflexivity.
    + rewrite Hother. apply String.eqb_neq in Hs. rewrite Hs. reflexivity.
  - cbn [handle next_sensors].
    destruct (find_alert (VStr alertId) (alerts d)) as [i|] eqn:Hfind.
    + destruct (proj1 (find_alert_Some _ _ _) Hfind) as (a & Ha & _).
      by rewrite (post_acknowledge_found _ _ _ _ _ Hfind Ha).
    + by rewrite post_acknowledge_not_found.
  - cbn [handle next_sensors].
    destruct (find_alert alertId (alerts d)) as [i|] eqn:Hfind.
    + by rewrite (on_acknowledgeAlert_found _ _ _ Hfind).
    + by rewrite on_acknowledgeAlert_not_found.
Qed.

Lemma length_keep_last_100 (o : object) :
  length o ≤ 101 → length (keep_last_100 o) ≤ 100.
Proof.
  unfold keep_last_100, Object_keys. rewrite length_fmap.
  destruct (Nat.ltb_spec 100 (length o)) as [Hlt|Hle]; [|lia].
  destruct o as [|[k v] o]; simpl; [lia|]. rewrite String.eqb_refl.
  pose proof (length_prop_delete_le k o). lia.
Qed.

Lemma keep_last_100_small (o : object) : length o ≤ 100 → keep_last_100 o = o.
Proof.
  unfold keep_last_100, Object_keys. rewrite length_fmap. intros H.
  destruct (Nat.ltb_spec 100 (length o)); [lia | reflexivity].
Qed.

Lemma length_next_sensors e (o : object) :
  length o ≤ 100 → length (next_sensors e o) ≤ 100.
Proof.
  intros Ho.
  destruct e as [topic [data|] c| |alertId now|socket|socket|socket alertId|socket];
    cbn [next_sensors]; try exact Ho.
  destruct (String.eqb topic sensor_topic); [|exact Ho].
  apply length_keep_last_100.
  pose proof (length_prop_set_le (sensor_key (date_now c))
                (sensor_record data (handler_date c)) o). lia.
Qed.

(** The bound half of C1: whatever is ingested, and at whatever clock
    readings, the sensor store never holds more than 100 entries. *)
Theorem sensors_at_most_100 (boot : Z) (es : list event) :
  length (sensors (run es (dashboardData boot))) ≤ 100.
Proof.
  assert (∀ d, length (sensors d) ≤ 100 → length (sensors (run es d)) ≤ 100) as H.
  { induction es as [|e es IH]; intros d Hd; [exact Hd|].
    simpl run. apply IH. rewrite handle_sensors. by apply length_next_sensors. }
  apply H. simpl. lia.
Qed.

Lemma sensor_entries_snoc es e :
  sensor_entries (es ++ [e]) = sensor_entries es ++ sensor_entry e.
Proof.
  unfold sensor_entries. rewrite bind_app. simpl. by rewrite app_nil_r.
Qed.

Lemma sensor_entries_keys es :
  Object_keys (sensor_entries es) = sensor_key <$> sensor_times es.
Proof.
  unfold Object_keys, sensor_entries, sensor_times.
  induction es as [|e es IH]; [reflexivity|].
  rewrite !bind_cons, !fmap_app, IH. f_equal.
  destruct e as [topic [data|] c| | | | | |]; try reflexivity.
  simpl. destruct (String.eqb topic sensor_topic); reflexivity.
Qed.

(** With distinct keys, deleting the first key of an object removes its
    first property and nothing else. *)
Lemma prop_delete_first k v (o : object) :
  NoDup (Object_keys ((k, v) :: o)) → prop_delete k ((k, v) :: o) = o.
Proof.
  unfold Object_keys. simpl. rewrite NoDup_cons, String.eqb_refl.
  intros [Hk _]. by apply prop_delete_absent.
Qed.

Lemma keep_last_100_snoc (E : object) k v :
  NoDup (Object_keys (E ++ [(k, v)])) →
  keep_last_100 (drop (length E - 100) E ++ [(k, v)]) =
    drop (length (E ++ [(k, v)]) - 100) (E ++ [(k, v)]).
Proof.
  intros Hnd. rewrite length_app. simpl length.
  destruct (Nat.le_gt_cases (length E) 99) as [Hle|Hgt].
  - replace (length E - 100) with 0 by lia.
    replace (length E + 1 - 100) with 0 by lia. rewrite !drop_0.
    apply keep_last_100_small. rewrite length_app. simpl. lia.
  - assert (length (drop (length E - 100) E) = 100) as Hlen
      by (rewrite length_drop; lia).
    destruct (drop (length E - 100) E) as [|[k0 v0] S'] eqn:HS; [done|].
    assert (drop (length E + 1 - 100) E = S') as HS'.
    { replace (length E + 1 - 100) with (length E - 100 + 1) by lia.
      by rewrite <- drop_drop, HS. }
    rewrite drop_app_le by lia. rewrite HS'.
    unfold keep_last_100.
    assert ((100 <? length (Object_keys (((k0, v0) :: S') ++ [(k, v)]))) = true) as ->.
    { apply Nat.ltb_lt. unfold Object_keys.
      rewrite length_fmap, length_app. simpl in *. lia. }
    change (Object_keys (((k0, v0) :: S') ++ [(k, v)]))
      with (k0 :: Object_keys (S' ++ [(k, v)])).
    change (((k0, v0) :: S') ++ [(k, v)]) with ((k0, v0) :: (S' ++ [(k, v)])).
    apply prop_delete_first.
    assert (((k0, v0) :: (S' ++ [(k, v)])) = drop (length E - 100) (E ++ [(k, v)]))
      as ->.
    { rewrite drop_app_le by lia. by rewrite HS. }
    unfold Object_keys in *. rewrite fmap_drop.
    apply (sublist_NoDup _ _ Hnd), sublist_drop.
Qed.

(** The order half of C1, under the condition the code needs: when the
    sensor messages of a run carry pairwise distinct [Date.now()] readings,
    the store holds exactly the last 100 readings, oldest first, each under
    its own key; the bound alone holds without the condition. *)
Theorem sensors_fifo_when_clock_distinct (boot : Z) (es : list event) :
  NoDup (sensor_times es) →
  sensors (run es (dashboardData boot)) =
    drop (length (sensor_entries es) - 100) (sensor_entries es).
Proof.
  induction es as [|e es IH] using rev_ind; intros Hnd; [reflexivity|].
  assert (NoDup (Object_keys (sensor_entries (es ++ [e])))) as Hkeys.
  { rewrite sensor_entries_keys. apply (NoDup_fmap_2 sensor_key), Hnd. }
  assert (NoDup (sensor_times es)) as Hnd'.
  { unfold sensor_times in Hnd. rewrite bind_app in Hnd.
    by apply NoDup_app in Hnd as [? _]. }
  rewrite run_app. simpl run. rewrite handle_sensors, (IH Hnd').
  rewrite sensor_entries_snoc in *.
  destruct e as [topic [data|] c| | | | | |];
    cbn [next_sensors sensor_entry]; rewrite ?app_nil_r; try reflexivity.
  cbn [sensor_entry] in Hkeys.
  destruct (String.eqb topic sensor_topic); rewrite ?app_nil_r; [|reflexivity].
  rewrite prop_set_fresh.
  - by apply keep_last_100_snoc.
  - unfold Object_keys in *. rewrite fmap_app in Hkeys.
    apply NoDup_app in Hkeys as (_ & Hnin & _). intros Hin.
    rewrite fmap_drop in Hin. apply elem_of_sublist with (l2 := (sensor_entries es).*1) in Hin;
      [|apply sublist_drop].
    apply (Hnin _ Hin). simpl. apply list_elem_of_here.
Qed.

(** C1, on the failing input: R101 takes the key of R100, nothing is
    evicted, and the store ends with R1 still present and R100 gone. *)
Theorem same_millisecond_reading_is_lost :
  let o := sensors (run readings_with_collision (dashboardData 0)) in
  Object_keys o = sensor_key <$> seqZ 1 100
  ∧ own (sensor_key 1) o = Some (sensor_record (reading 1) 1)
  ∧ own (sensor_key 100) o = Some (sensor_record (reading 101) 100)
  ∧ sensor_record (reading 101) 100 ≠ sensor_record (reading 100) 100.
Proof.
  cbv zeta. split; [vm_compute; reflexivity|]. split; [vm_compute; reflexivity|].
  split; [vm_compute; reflexivity|]. vm_compute. discriminate.
Qed.

(** ** Identifiers taken from the clock *)

Lemma own_app k (o1 o2 : object) :
  own k (o1 ++ o2) = match own k o1 with Some v => Some v | None => own k o2 end.
Proof.
  induction o1 as [|[k0 v0] o1 IH]; simpl; [reflexivity|].
  destruct (String.eqb k0 k); [reflexivity | exact IH].
Qed.

Lemma own_copy_properties_absent k src (o : object) :
  own k src = None → own k (copy_properties src o) = own k o.
Proof.
  induction src as [|[k0 v0] src IH] using rev_ind; [reflexivity|].
  rewrite own_app. destruct (own k src); [discriminate|]. simpl.
  destruct (String.eqb_spec k0 k) as [|Hne]; [discriminate|]. intros _.
  rewrite copy_properties_snoc, own_prop_set_ne by done. by apply IH.
Qed.

(** The id of a new alert: the payload's own [id] when the spread copies
    one, the identifier built from the clock otherwise. *)
Lemma new_alert_id data now_ms now :
  prop_get "id" (new_alert data now_ms now) =
    match own "id" (copy_properties (own_entries data) []) with
    | Some v => v
    | None => VStr (alert_key now_ms)
    end.
Proof.
  unfold new_alert, object_literal, prop_get. simpl.
  rewrite !own_prop_set_ne by done. rewrite own_copy_properties.
  destruct (own "id" (copy_properties (own_entries data) [])); reflexivity.
Qed.

Lemma new_alert_id_fresh data now_ms now :
  own "id" (own_entries data) = None →
  prop_get "id" (new_alert data now_ms now) = VStr (alert_key now_ms).
Proof.
  intros Hid. rewrite new_alert_id.
  by rewrite (own_copy_properties_absent _ _ _ Hid).
Qed.

Lemma new_alert_unacknowledged data now_ms now :
  prop_get "acknowledged" (new_alert data now_ms now) = VBool false.
Proof. unfold new_alert, object_literal. simpl. apply prop_get_prop_set_eq. Qed.

Lemma run_sensors_bounded es d :
  length (sensors d) ≤ 100 → length (sensors (run es d)) ≤ 100.
Proof.
  revert d. induction es as [|e es IH]; intros d Hd; [exact Hd|].
  simpl run. apply IH. rewrite handle_sensors. by apply length_next_sensors.
Qed.

Lemma own_prop_delete_ne k k' (o : object) :
  k ≠ k' → own k' (prop_delete k o) = own k' o.
Proof.
  intros Hne. induction o as [|[k0 v0] o IH]; simpl; [reflexivity|].
  destruct (String.eqb_spec k0 k) as [->|]; simpl.
  - destruct (String.eqb_spec k k'); [done | exact IH].
  - destruct (String.eqb k0 k'); [reflexivity | exact IH].
Qed.

(** A reading just stored is still there after the eviction. *)
Lemma own_keep_last_100_prop_set k v (o : object) :
  length o ≤ 100 → own k (keep_last_100 (prop_set k v o)) = Some v.
Proof.
  intros Ho. destruct (own k o) as [v0|] eqn:Hk.
  - rewrite keep_last_100_small; [apply own_prop_set_eq|].
    assert (k ∈ Object_keys o) as Hin.
    { destruct (decide (k ∈ Object_keys o)) as [|Hn]; [done|].
      apply own_None_keys in Hn. congruence. }
    apply prop_set_keys_present with (v := v) in Hin.
    apply (f_equal length) in Hin. unfold Object_keys in Hin.
    rewrite !length_fmap in Hin. lia.
  - apply own_None_keys in Hk. rewrite (prop_set_fresh _ _ _ Hk).
    unfold keep_last_100.
    destruct (100 <? _) eqn:Hlt; [|rewrite own_app, (proj2 (own_None_keys _ _) Hk);
                                    simpl; by rewrite String.eqb_refl].
    destruct o as [|[k0 v0] o]; [simpl in Hlt; discriminate|].
    change (Object_keys (((k0, v0) :: o) ++ [(k, v)]))
      with (k0 :: Object_keys (o ++ [(k, v)])). cbv iota.
    rewrite own_prop_delete_ne.
    + rewrite own_app, (proj2 (own_None_keys _ _) Hk). simpl.
      by rewrite String.eqb_refl.
    + intros ->. apply Hk. unfold Object_keys. simpl. apply list_elem_of_here.
Qed.

Lemma next_alerts_ingest data c (l : list object) :
  next_alerts (MqttMessage alert_topic (Some data) c) l =
    new_alert data (date_now c) (handler_date c)
      :: (if nullish data then l else take 49 l).
Proof.
  cbn [next_alerts]. change (String.eqb alert_topic alert_topic) with true.
  cbv iota. destruct (nullish data); [reflexivity|].
  rewrite keep_newest_50_take. reflexivity.
Qed.

(** C9, as stated, fails for alerts whose payloads bring an [id]: two
    alerts ingested in the same millisecond with payload ids [A1] and [A2]
    are stored under those two ids, not under a shared one, and an
    acknowledgment by the id built from the clock finds no alert. *)
Lemma payload_ids_differ_in_one_millisecond :
  let c := mkClock 5 5 5 in
  let d2 := run [MqttMessage alert_topic (Some (VObj [("id", VStr "A1")])) c;
                 MqttMessage alert_topic (Some (VObj [("id", VStr "A2")])) c]
                (dashboardData 0) in
  (prop_get "id" <$> alerts d2) = [VStr "A2"; VStr "A1"]
  ∧ VStr "A2" ≠ VStr "A1"
  ∧ handle (PostAcknowledge (alert_key 5) 9) d2 =
      mkResult (Normal tt) d2 [not_found_response]
  ∧ handle (AcknowledgeAlert 1 (VStr (alert_key 5))) d2 =
      mkResult (Normal tt) d2 [].
Proof.
  cbv zeta. split; [vm_compute; reflexivity|]. split; [discriminate|].
  split; vm_compute; reflexivity.
Qed.

(** C9, amended: the identifiers the handlers assign are built from the
    [Date.now()] reading alone, equal readings giving equal identifiers and
    different readings different ones.  Two sensor readings with the same
    reading share a key: the second replaces the record of the first and
    adds no entry.  Two alerts with the same reading whose payloads have no
    [id] of their own (a payload [id] replaces the assigned one) share an
    id and are both stored; an acknowledgment by that id, through the route
    or from a subscriber, writes to the first match, the alert ingested
    last, and leaves the other one unacknowledged. *)
Theorem same_millisecond_same_identifier (boot : Z) (es : list event)
    (data1 data2 : value) (c1 c2 : clock) (now : Z) (socket : nat) :
  date_now c1 = date_now c2 →
  let d := run es (dashboardData boot) in
  let s1 := run [MqttMessage sensor_topic (Some data1) c1] d in
  let s2 := run [MqttMessage sensor_topic (Some data2) c2] s1 in
  let a1 := new_alert data1 (date_now c1) (handler_date c1) in
  let a2 := new_alert data2 (date_now c2) (handler_date c2) in
  let d2 := run [MqttMessage alert_topic (Some data1) c1;
                 MqttMessage alert_topic (Some data2) c2] d in
  let id := alert_key (date_now c1) in
  ((∀ t t', sensor_key t = sensor_key t' ↔ t = t')
   ∧ (∀ t t', alert_key t = alert_key t' ↔ t = t'))
  ∧ (sensor_key (date_now c1) = sensor_key (date_now c2)
   ∧ own (sensor_key (date_now c1)) (sensors s1) =
       Some (sensor_record data1 (handler_date c1))
   ∧ own (sensor_key (date_now c1)) (sensors s2) =
       Some (sensor_record data2 (handler_date c2))
   ∧ Object_keys (sensors s2) = Object_keys (sensors s1))
  ∧ (own "id" (own_entries data1) = None →
     own "id" (own_entries data2) = None →
     prop_get "id" a1 = VStr id
     ∧ prop_get "id" a2 = VStr id
     ∧ prop_get "acknowledged" a1 = VBool false
     ∧ alerts d2 !! 0 = Some a2
     ∧ alerts d2 !! 1 = Some a1
     ∧ alerts (store (handle (PostAcknowledge id now) d2)) !! 0 =
         Some (acknowledge_at now a2)
     ∧ alerts (store (handle (PostAcknowledge id now) d2)) !! 1 = Some a1
     ∧ alerts (store (handle (AcknowledgeAlert socket (VStr id)) d2)) !! 0 =
         Some (prop_set "acknowledged" (VBool true) a2)
     ∧ alerts (store (handle (AcknowledgeAlert socket (VStr id)) d2)) !! 1 = Some a1).
Proof.
  intros Hclock. cbv zeta. split; [|split].
  - split; intros t t'; (split; [apply (inj _) | by intros ->]).
  - cbn [run]. rewrite !handle_sensors. cbn [next_sensors].
    change (String.eqb sensor_topic sensor_topic) with true. cbv iota.
    rewrite <- Hclock.
    pose proof (sensors_at_most_100 boot es) as Hlen.
    set (o := sensors (run es (dashboardData boot))) in *.
    set (k := sensor_key (date_now c1)).
    pose proof (own_keep_last_100_prop_set k
                  (sensor_record data1 (handler_date c1)) o Hlen) as H1.
    set (o1 := keep_last_100 (prop_set k (sensor_record data1 (handler_date c1)) o)) in *.
    assert (length o1 ≤ 100) as Hlen1.
    { apply length_keep_last_100.
      pose proof (length_prop_set_le k (sensor_record data1 (handler_date c1)) o).
      lia. }
    assert (k ∈ Object_keys o1) as Hin.
    { destruct (decide (k ∈ Object_keys o1)) as [|Hn]; [done|].
      apply own_None_keys in Hn. congruence. }
    pose proof (prop_set_keys_present k
                  (sensor_record data2 (handler_date c2)) o1 Hin) as Hkeys.
    assert (keep_last_100 (prop_set k (sensor_record data2 (handler_date c2)) o1) =
            prop_set k (sensor_record data2 (handler_date c2)) o1) as ->.
    { apply keep_last_100_small. apply (f_equal length) in Hkeys.
      unfold Object_keys in Hkeys. rewrite !length_fmap in Hkeys. lia. }
    repeat split; [done | apply own_prop_set_eq | done].
  - intros Hid1 Hid2. cbn [run]. rewrite !handle_alerts, !next_alerts_ingest.
    set (a1 := new_alert data1 (date_now c1) (handler_date c1)).
    set (a2 := new_alert data2 (date_now c2) (handler_date c2)).
    assert (prop_get "id" a1 = VStr (alert_key (date_now c1))) as Ha1
      by (by apply new_alert_id_fresh).
    assert (prop_get "id" a2 = VStr (alert_key (date_now c1))) as Ha2
      by (rewrite Hclock; by apply new_alert_id_fresh).
    assert (∃ rest, (if nullish data2
                     then a1 :: (if nullish data1 then alerts (run es (dashboardData boot))
                                 else take 49 (alerts (run es (dashboardData boot))))
                     else take 49
                            (a1 :: (if nullish data1
                                    then alerts (run es (dashboardData boot))
                                    else take 49 (alerts (run es (dashboardData boot))))))
                    = a1 :: rest) as [rest ->].
    { destruct (nullish data2); eexists; reflexivity. }
    cbn [next_alerts]. unfold find_alert. rewrite Ha2. simpl strict_eq.
    rewrite String.eqb_refl.
    repeat split; try done. apply new_alert_unacknowledged.
Qed.

Lemma same_millisecond_witness :
  let c := mkClock 5 5 5 in
  let d2 := run [MqttMessage alert_topic (Some (reading 1)) c;
                 MqttMessage alert_topic (Some (reading 2)) c] (dashboardData 0) in
  sensor_key 5 = sensor_key 5
  ∧ alerts (store (handle (PostAcknowledge (alert_key 5) 9) d2)) !! 1 =
      Some (new_alert (reading 1) 5 5).
Proof.
  intros c d2.
  pose proof (same_millisecond_same_identifier 0 [] (reading 1) (reading 2) c c 9 1
                eq_refl) as (_ & Hs & Ha).
  specialize (Ha eq_refl eq_refl).
  split; [exact (proj1 Hs) | exact (proj1 (proj2 (proj2 (proj2 (proj2 (proj2 (proj2 Ha)))))))].
Defined.

(** ** The fan-out *)

(** C6, as stated, fails on two inputs.  A message whose text is the JSON
    literal [null] decodes, but on the alert topic the handler throws after
    storing the alert and nothing is fanned out.  And an alert payload with
    an [id] of its own is broadcast (and stored) under that id, not under a
    freshly assigned one. *)
Lemma fan_out_counterexample :
  let c := mkClock 5 5 6 in
  let r := handle (MqttMessage alert_topic (Some VNull) c) (dashboardData 0) in
  let r' := handle (MqttMessage alert_topic (Some (VObj [("id", VStr "A1")])) c)
              (dashboardData 0) in
  sent r = [console_error alert_topic TypeError]
  ∧ count_emits "dataUpdate" (sent r) = 0
  ∧ count_emits "newAlert" (sent r) = 0
  ∧ length (alerts (store r)) = 1
  ∧ sent r' =
      [io_emit "newAlert"
         (VObj [("id", VStr "A1"); ("timestamp", VDate 5);
                ("acknowledged", VBool false)]);
       io_emit "dataUpdate"
         (data_update alert_topic (VObj [("id", VStr "A1")]) 6)]
  ∧ VStr "A1" ≠ VStr (alert_key 5).
Proof.
  cbv zeta. repeat split; try (vm_compute; reflexivity). vm_compute. discriminate.
Qed.

(** C6, amended: every decoded message, a [null] payload on the alert topic
    aside, produces exactly one [dataUpdate] event carrying the topic, the
    decoded payload and a timestamp, whatever the topic; an alert with such
    a payload produces before it exactly one [newAlert] event carrying the
    record that was stored, whose [acknowledged] is false and whose id is
    the payload's own [id] when it has one (the [id] of [{...data}]) and
    the one assigned from the clock otherwise. *)
Theorem decoded_message_fans_out_once (topic : string) (data : value)
    (c : clock) (d : dashboard) :
  (topic = alert_topic → nullish data = false) →
  let r := handle (MqttMessage topic (Some data) c) d in
  let alert := new_alert data (date_now c) (handler_date c) in
  sent r =
    (if String.eqb topic alert_topic then [io_emit "newAlert" (VObj alert)] else [])
    ++ [io_emit "dataUpdate"
          (VObj [("topic", VStr topic); ("data", data);
                 ("timestamp", VDate (emit_date c))])]
  ∧ count_emits "dataUpdate" (sent r) = 1
  ∧ (topic = alert_topic →
       count_emits "newAlert" (sent r) = 1
       ∧ alerts (store r) !! 0 = Some alert
       ∧ prop_get "acknowledged" alert = VBool false
       ∧ prop_get "id" alert =
           match own "id" (copy_properties (own_entries data) []) with
           | Some v => v
           | None => VStr (alert_key (date_now c))
           end).
Proof.
  intros Hdata. cbv zeta.
  assert (sent (handle (MqttMessage topic (Some data) c) d) =
          (if String.eqb topic alert_topic
           then [io_emit "newAlert"
                   (VObj (new_alert data (date_now c) (handler_date c)))]
           else [])
          ++ [io_emit "dataUpdate" (data_update topic data (emit_date c))]) as Hsent.
  { cbn [handle]. rewrite on_message_decoded. cbn [sent].
    destruct (topic_cases topic) as [->| ->| ->| ->|Hother Hs Ha].
    - rewrite dispatch_sensor, handleSensorData_eq. reflexivity.
    - rewrite dispatch_alert, handleEmergencyAlert_eq by auto. reflexivity.
    - reflexivity.
    - reflexivity.
    - rewrite Hother. apply String.eqb_neq in Ha. rewrite Ha. reflexivity. }
  split; [exact Hsent|]. split.
  - rewrite Hsent. destruct (String.eqb topic alert_topic); reflexivity.
  - intros ->. rewrite Hsent. split; [reflexivity|]. split.
    + rewrite handle_alerts, next_alerts_ingest. reflexivity.
    + split; [apply new_alert_unacknowledged | apply new_alert_id].
Qed.

Lemma decoded_message_fans_out_witness :
  let r := handle (MqttMessage alert_topic (Some (VObj [("severity", VStr "CRITICAL")]))
                     (mkClock 5 5 6)) (dashboardData 0) in
  count_emits "dataUpdate" (sent r) = 1
  ∧ count_emits "newAlert" (sent r) = 1
  ∧ count_emits "dataUpdate"
      (sent (handle (MqttMessage prediction_topic (Some VNull) (mkClock 5 5 6))
               (dashboardData 0))) = 1.
Proof.
  intros r. split; [|split].
  - refine (proj1 (proj2 (decoded_message_fans_out_once alert_topic _ _ _ _))).
    intros _. reflexivity.
  - refine (proj1 (proj2 (proj2
              (decoded_message_fans_out_once alert_topic _ _ _ _)) eq_refl)).
    intros _. reflexivity.
  - refine (proj1 (proj2 (decoded_message_fans_out_once prediction_topic _ _ _ _))).
    intros H. vm_compute in H. discriminate.
Defined.

(** * Further properties of the server and of the page script *)

(** ** The sensor store: keys and contents *)

Lemma elem_of_prop_set kv k v (o : object) :
  kv ∈ prop_set k v o → kv ∈ o ∨ kv = (k, v).
Proof.
  induction o as [|[k0 v0] o IH]; simpl.
  - intros ->%list_elem_of_singleton. by right.
  - destruct (String.eqb_spec k0 k) as [->|Hne].
    + intros [->|Hin]%elem_of_cons; [by right|]. left. by apply list_elem_of_further.
    + intros [->|Hin]%elem_of_cons; [left; apply list_elem_of_here|].
      destruct (IH Hin) as [?|?]; [left; by apply list_elem_of_further | by right].
Qed.

Lemma prop_delete_sublist k (o : object) : prop_delete k o `sublist_of` o.
Proof.
  induction o as [|[k0 v0] o IH]; simpl; [constructor|].
  destruct (String.eqb k0 k); [by apply sublist_cons | by apply sublist_skip].
Qed.

Lemma keep_last_100_sublist (o : object) : keep_last_100 o `sublist_of` o.
Proof.
  unfold keep_last_100. destruct (100 <? _); [|done].
  destruct (Object_keys o); [done | apply prop_delete_sublist].
Qed.

Lemma NoDup_keys_prop_set k v (o : object) :
  NoDup (Object_keys o) → NoDup (Object_keys (prop_set k v o)).
Proof.
  intros Hnd. destruct (decide (k ∈ Object_keys o)) as [Hin|Hnin].
  - by rewrite prop_set_keys_present.
  - rewrite prop_set_fresh by done. unfold Object_keys in *.
    rewrite fmap_app. apply NoDup_app. split; [done|]. split.
    + intros x Hx ->%list_elem_of_singleton. done.
    + apply NoDup_singleton.
Qed.

Lemma NoDup_keys_sublist (o o' : object) :
  o' `sublist_of` o → NoDup (Object_keys o) → NoDup (Object_keys o').
Proof.
  intros Hsub Hnd. unfold Object_keys in *.
  apply (sublist_NoDup _ _ Hnd). by apply fmap_sublist.
Qed.

Lemma elem_of_next_sensors e (o : object) kv :
  kv ∈ next_sensors e o → kv ∈ o ∨ kv ∈ sensor_entry e.
Proof.
  destruct e as [topic [data|] c| | | | | |]; cbn [next_sensors sensor_entry]; auto.
  destruct (String.eqb topic sensor_topic); [|auto].
  intros Hin. pose proof (elem_of_sublist _ _ _ Hin (keep_last_100_sublist _)) as Hin'.
  apply elem_of_prop_set in Hin' as [?|Heq]; [by left|]. subst kv.
  right. apply list_elem_of_here.
Qed.

Lemma NoDup_keys_next_sensors e (o : object) :
  NoDup (Object_keys o) → NoDup (Object_keys (next_sensors e o)).
Proof.
  intros Hnd.
  destruct e as [topic [data|] c| | | | | |]; cbn [next_sensors]; try done.
  destruct (String.eqb topic sensor_topic); [|done].
  apply (NoDup_keys_sublist _ _ (keep_last_100_sublist _)).
  by apply NoDup_keys_prop_set.
Qed.

Lemma sensor_entries_cons e es :
  sensor_entries (e :: es) = sensor_entry e ++ sensor_entries es.
Proof. reflexivity. Qed.

(** X1: in every run from the initial store the sensor store has at most
    100 entries, no key occurs twice, and every entry is the key and record
    written for some sensor message of the run; so every key has the form
    [sensor_<ms>], never an array index, and [Object.keys] lists the entries
    in insertion order. *)
Theorem sensor_store_invariant (boot : Z) (es : list event) :
  let o := sensors (run es (dashboardData boot)) in
  length o ≤ 100
  ∧ NoDup (Object_keys o)
  ∧ (∀ k v, (k, v) ∈ o →
       ∃ data c, MqttMessage sensor_topic (Some data) c ∈ es
                 ∧ k = sensor_key (date_now c)
                 ∧ v = sensor_record data (handler_date c)).
Proof.
  cbv zeta. split; [apply run_sensors_bounded; simpl; lia|]. split.
  - assert (∀ d, NoDup (Object_keys (sensors d)) →
                 NoDup (Object_keys (sensors (run es d)))) as H.
    { induction es as [|e es IH]; intros d Hd; [done|].
      simpl run. apply IH. rewrite handle_sensors. by apply NoDup_keys_next_sensors. }
    apply H. simpl. constructor.
  - assert (∀ d kv, kv ∈ sensors (run es d) →
                    kv ∈ sensors d ∨ kv ∈ sensor_entries es) as H.
    { induction es as [|e es IH]; intros d kv Hin; [by left|].
      simpl run in Hin. apply IH in Hin as [Hin|Hin].
      - rewrite handle_sensors in Hin.
        apply elem_of_next_sensors in Hin as [?|?]; [by left|].
        right. rewrite sensor_entries_cons. apply elem_of_app. by left.
      - right. rewrite sensor_entries_cons. apply elem_of_app. by right. }
    intros k v Hin. apply H in Hin as [Hin|Hin].
    { simpl in Hin. by apply elem_of_nil in Hin. }
    unfold sensor_entries in Hin. apply list_elem_of_bind in Hin as (e & Hkv & He).
    destruct e as [topic [data|] c| | | | | |];
      cbn [sensor_entry] in Hkv; try (by apply elem_of_nil in Hkv).
    destruct (String.eqb_spec topic sensor_topic) as [->|];
      [|by apply elem_of_nil in Hkv].
    apply list_elem_of_singleton in Hkv. injection Hkv as -> ->.
    by exists data, c.
Qed.

Lemma own_elem_of k v (o : object) :
  NoDup (Object_keys o) → (k, v) ∈ o → own k o = Some v.
Proof.
  unfold Object_keys. induction o as [|[k0 v0] o IH]; simpl.
  - intros _ H. by apply elem_of_nil in H.
  - rewrite NoDup_cons. intros [Hk0 Hnd] [[= -> ->]|Hin]%elem_of_cons.
    + by rewrite String.eqb_refl.
    + destruct (String.eqb_spec k0 k) as [->|]; [|by apply IH].
      exfalso. apply Hk0. apply list_elem_of_fmap. by exists (k, v).
Qed.

(** X2: when the sensor messages of a run carry pairwise distinct
    [Date.now()] readings, the reading that arrived [i]-th is stored under
    its own key exactly when it is one of the last 100, and its key is
    absent otherwise: the first come are the first evicted. *)
Theorem sensor_lookup_last_100 (boot : Z) (es : list event) (i : nat)
    (k : string) (v : value) :
  NoDup (sensor_times es) →
  sensor_entries es !! i = Some (k, v) →
  own k (sensors (run es (dashboardData boot))) =
    if decide (i < length (sensor_entries es) - 100) then None else Some v.
Proof.
  intros Hnd Hi. rewrite (sensors_fifo_when_clock_distinct boot es Hnd).
  assert (NoDup (Object_keys (sensor_entries es))) as Hkeys.
  { rewrite sensor_entries_keys. by apply (NoDup_fmap_2 sensor_key). }
  set (E := sensor_entries es) in *. set (m := length E - 100).
  case_decide as Hlt.
  - apply own_None_keys. unfold Object_keys in *. rewrite fmap_drop.
    rewrite <- (take_drop m (E.*1)) in Hkeys.
    apply NoDup_app in Hkeys as (_ & Hdisj & _). apply Hdisj.
    rewrite <- fmap_take. apply list_elem_of_fmap. exists (k, v). split; [done|].
    apply elem_of_take. by exists i.
  - apply own_elem_of.
    + apply (NoDup_keys_sublist E); [apply sublist_drop | done].
    + apply list_elem_of_lookup. exists (i - m). rewrite lookup_drop.
      by replace (m + (i - m)) with i by lia.
Qed.

Lemma sensor_lookup_last_100_witness :
  let es := (fun n => sensor_message n n) <$> seqZ 1 101 in
  own (sensor_key 1) (sensors (run es (dashboardData 0))) = None
  ∧ own (sensor_key 2) (sensors (run es (dashboardData 0))) =
      Some (sensor_record (reading 2) 2).
Proof.
  intros es.
  assert (NoDup (sensor_times es)) as Hnd.
  { apply (bool_decide_unpack _). vm_compute. reflexivity. }
  split.
  - refine (sensor_lookup_last_100 0 es 0 _ _ Hnd _). vm_compute. reflexivity.
  - refine (sensor_lookup_last_100 0 es 1 _ _ Hnd _). vm_compute. reflexivity.
Defined.

(** ** What the stored records take from the payload *)

Lemma spread_copy_object props :
  NoDup (Object_keys props) → spread_copy (VObj props) = props.
Proof. apply copy_properties_NoDup. Qed.

(** X3: the payload cannot choose the bookkeeping fields.  A sensor record
    always has the handler's [timestamp] and status ['active'], an alert
    record the handler's [timestamp] and [acknowledged] false, a prediction
    snapshot the handler's [timestamp], whatever the payload says under
    those names.  The [id] of an alert is the payload's own when a spread of
    the payload has one, the one built from the clock otherwise.  Every
    remaining property (for an alert: every property but [id], [timestamp]
    and [acknowledged]) is the one a spread of the payload gives. *)
Theorem payload_cannot_set_bookkeeping (data : value) (now_ms now : Z) :
  (∃ o, sensor_record data now = VObj o
        ∧ prop_get "timestamp" o = VDate now
        ∧ prop_get "status" o = VStr "active"
        ∧ ∀ k, k ≠ "timestamp" → k ≠ "status" → own k o = own k (spread_copy data))
  ∧ (prop_get "timestamp" (new_alert data now_ms now) = VDate now
     ∧ prop_get "acknowledged" (new_alert data now_ms now) = VBool false
     ∧ prop_get "id" (new_alert data now_ms now) =
         match own "id" (spread_copy data) with
         | Some v => v
         | None => VStr (alert_key now_ms)
         end
     ∧ ∀ k, k ≠ "id" → k ≠ "timestamp" → k ≠ "acknowledged" →
         own k (new_alert data now_ms now) = own k (spread_copy data))
  ∧ (∀ d, let p := predictions (store (handlePredictionData data now d)) in
          prop_get "timestamp" p = VDate now
          ∧ ∀ k, k ≠ "timestamp" → own k p = own k (spread_copy data)).
Proof.
  unfold spread_copy. split; [|split].
  - eexists. split; [reflexivity|]. unfold object_literal. simpl. split; [|split].
    + rewrite prop_get_prop_set_ne by done. apply prop_get_prop_set_eq.
    + apply prop_get_prop_set_eq.
    + intros k H1 H2. by rewrite !own_prop_set_ne.
  - split; [|split; [apply new_alert_unacknowledged|split; [apply new_alert_id|]]];
      unfold new_alert, object_literal; simpl.
    + rewrite prop_get_prop_set_ne by done. apply prop_get_prop_set_eq.
    + intros k H1 H2 H3. rewrite !own_prop_set_ne by done.
      rewrite own_copy_properties.
      destruct (own k (copy_properties (own_entries data) [])); [reflexivity|].
      cbn [own]. assert (String.eqb "id" k = false) as ->
        by (apply String.eqb_neq; congruence).
      reflexivity.
  - intros d. cbv zeta. rewrite handlePredictionData_eq. cbn [store predictions set_predictions].
    unfold object_literal. simpl. split.
    + apply prop_get_prop_set_eq.
    + intros k H1. by rewrite own_prop_set_ne.
Qed.

(** ** The alert list: length and shape of the records *)

(** X4: one alert message changes the length of the list in two ways only.
    With a payload that is not [null] the list has afterwards one more alert
    up to the cap of 50, whatever its length was; with a [null] payload it
    has one more alert, without cap. *)
Theorem alert_list_length_after_ingestion (data : value) (c : clock)
    (d : dashboard) :
  length (alerts (store (handle (MqttMessage alert_topic (Some data) c) d))) =
    if nullish data then S (length (alerts d))
    else Nat.min 50 (S (length (alerts d))).
Proof.
  rewrite handle_alerts, next_alerts_ingest.
  destruct (nullish data); simpl length; [reflexivity|].
  rewrite length_take. lia.
Qed.

Lemma well_formed_new_alert data now_ms now :
  well_formed_alert (new_alert data now_ms now).
Proof.
  unfold well_formed_alert, new_alert, object_literal. simpl. split; [|split].
  - rewrite !own_prop_set_ne by done. rewrite own_copy_properties. simpl.
    destruct (own "id" (copy_properties (own_entries data) [])); eauto.
  - rewrite own_prop_set_ne by done. rewrite own_prop_set_eq. eauto.
  - rewrite own_prop_set_eq. eauto.
Qed.

Lemma well_formed_acknowledge_at now a :
  well_formed_alert a → well_formed_alert (acknowledge_at now a).
Proof.
  unfold well_formed_alert, acknowledge_at. intros (Hid & Hts & _).
  rewrite !(own_prop_set_ne "acknowledgedAt"), !(own_prop_set_ne "acknowledged" "id"),
    !(own_prop_set_ne "acknowledged" "timestamp"), own_prop_set_eq by done.
  eauto.
Qed.

Lemma well_formed_set_acknowledged a :
  well_formed_alert a → well_formed_alert (prop_set "acknowledged" (VBool true) a).
Proof.
  unfold well_formed_alert. intros (Hid & Hts & _).
  rewrite !(own_prop_set_ne "acknowledged" "id"),
    !(own_prop_set_ne "acknowledged" "timestamp"), own_prop_set_eq by done.
  eauto.
Qed.

Lemma well_formed_next_alerts e (l : list object) :
  Forall well_formed_alert l → Forall well_formed_alert (next_alerts e l).
Proof.
  intros Hl.
  destruct e as [topic [data|] c| |alertId now|socket|socket|socket alertId|socket];
    cbn [next_alerts]; try done.
  - destruct (String.eqb topic alert_topic); [|done].
    assert (Forall well_formed_alert
              (new_alert data (date_now c) (handler_date c) :: l)) as Hl'
      by (constructor; [apply well_formed_new_alert | done]).
    destruct (nullish data); [done|].
    rewrite keep_newest_50_take. by apply Forall_take.
  - destruct (find_alert (VStr alertId) l); [|done].
    apply Forall_alter; [done|]. intros x _. apply well_formed_acknowledge_at.
  - destruct (find_alert alertId l); [|done].
    apply Forall_alter; [done|]. intros x _. apply well_formed_set_acknowledged.
Qed.

(** X5: in every run from the initial store every stored alert has an
    [id], a [timestamp] that is a date and an [acknowledged] that is a
    boolean, whatever the payloads were and whichever way it was
    acknowledged. *)
Theorem stored_alerts_well_formed (boot : Z) (es : list event) :
  Forall well_formed_alert (alerts (run es (dashboardData boot))).
Proof.
  assert (∀ d, Forall well_formed_alert (alerts d) →
               Forall well_formed_alert (alerts (run es d))) as H.
  { induction es as [|e es IH]; intros d Hd; [done|].
    simpl run. apply IH. rewrite handle_alerts. by apply well_formed_next_alerts. }
  apply H. simpl. constructor.
Qed.

(** X6: every stored alert was counted: in every run from the initial
    store the alert list is never longer than [totalAlerts], and no event
    ever lowers one of the three counters. *)
Theorem alerts_counted_and_counters_monotone (boot : Z) (es es' : list event) :
  let d := run es (dashboardData boot) in
  let d' := run es' d in
  length (alerts d) ≤ totalAlerts (statistics d)
  ∧ totalAlerts (statistics d) ≤ totalAlerts (statistics d')
  ∧ criticalAlerts (statistics d) ≤ criticalAlerts (statistics d')
  ∧ anomaliesDetected (statistics d) ≤ anomaliesDetected (statistics d').
Proof.
  cbv zeta. split; [|split; [|split]].
  - assert (∀ d, length (alerts d) ≤ totalAlerts (statistics d) →
                 length (alerts (run es d)) ≤ totalAlerts (statistics (run es d))) as H.
    { induction es as [|e es IH]; intros d Hd; [done|].
      simpl run. apply IH. rewrite handle_alerts.
      destruct (handle_statistics e d) as [-> _]. unfold is_alert_ingestion.
      destruct e as [topic [data|] c| |alertId now|socket|socket|socket alertId|socket];
        cbn [next_alerts alert_payload]; try lia.
      - destruct (String.eqb topic alert_topic); [|lia].
        destruct (nullish data); [simpl; lia|].
        rewrite keep_newest_50_take, length_take. cbv iota. cbn [length]. lia.
      - destruct (find_alert (VStr alertId) (alerts d)); [rewrite length_alter|]; lia.
      - destruct (find_alert alertId (alerts d)); [rewrite length_alter|]; lia. }
    apply H. simpl. lia.
  - destruct (run_statistics es' (run es (dashboardData boot))) as [-> _]. lia.
  - destruct (run_statistics es' (run es (dashboardData boot))) as [_ ->]. lia.
  - generalize (run es (dashboardData boot)). induction es' as [|e es' IH]; intros d; [done|].
    simpl run. etrans; [|apply IH].
    destruct e as [topic [data|] c| |alertId now|socket|socket|socket alertId|socket];
      try (simpl; lia).
    + cbn [handle]. rewrite on_message_decoded. cbn [store].
      destruct (topic_cases topic) as [->| ->| ->| ->|Hother Hs Ha].
      * rewrite dispatch_sensor, handleSensorData_eq. simpl. lia.
      * rewrite dispatch_alert. destruct (nullish data) eqn:Hnull.
        -- rewrite handleEmergencyAlert_throws by done. simpl. lia.
        -- rewrite handleEmergencyAlert_eq by done.
           destruct (is_critical data); simpl; lia.
      * simpl. lia.
      * simpl. lia.
      * rewrite Hother. simpl. lia.
    + cbn [handle].
      destruct (find_alert (VStr alertId) (alerts d)) as [i|] eqn:Hfind.
      * destruct (proj1 (find_alert_Some _ _ _) Hfind) as (a & Ha & _).
        rewrite (post_acknowledge_found _ _ _ _ _ Hfind Ha). simpl. lia.
      * rewrite post_acknowledge_not_found by done. simpl. lia.
    + cbn [handle].
      destruct (find_alert alertId (alerts d)) as [i|] eqn:Hfind.
      * rewrite (on_acknowledgeAlert_found _ _ _ Hfind). simpl. lia.
      * rewrite on_acknowledgeAlert_not_found by done. simpl. lia.
Qed.

Lemma alerts_newest_50_witness :
  let es := fifty_alerts ++ [MqttMessage alert_topic (Some (VObj [])) (mkClock 51 51 51)] in
  length (alerts (run es (dashboardData 0))) ≤ 50
  ∧ totalAlerts (statistics (run es (dashboardData 0))) = length (ingested es).
Proof.
  intros es.
  refine (proj2 (alerts_newest_50_when_payloads_defined 0 es _)).
  intros e data c [He|He]%elem_of_app Hp.
  - unfold fifty_alerts in He. apply list_elem_of_fmap in He as (t & -> & _).
    injection Hp as <- _. reflexivity.
  - apply list_elem_of_singleton in He. subst e. injection Hp as <- _. reflexivity.
Defined.

(** ** Anomalies and predictions *)

Lemma not_in_topics topic :
  topic ∉ topics ↔
  topic ≠ sensor_topic ∧ topic ≠ alert_topic
  ∧ topic ≠ prediction_topic ∧ topic ≠ anomaly_topic.
Proof.
  unfold topics. rewrite !not_elem_of_cons. split.
  - intros (?&?&?&?&_). done.
  - intros (?&?&?&?). repeat split; try done. apply not_elem_of_nil.
Qed.

Lemma topic_in_or_out topic :
  topic = sensor_topic ∨ topic = alert_topic ∨ topic = prediction_topic
  ∨ topic = anomaly_topic ∨ topic ∉ topics.
Proof.
  destruct (String.eqb_spec topic sensor_topic); [by left|].
  destruct (String.eqb_spec topic alert_topic); [by right; left|].
  destruct (String.eqb_spec topic prediction_topic); [by right; right; left|].
  destruct (String.eqb_spec topic anomaly_topic); [by right; right; right; left|].
  right; right; right; right. by apply not_in_topics.
Qed.

Lemma dispatch_unsubscribed topic data c :
  topic ∉ topics → dispatch topic data c = ret tt.
Proof.
  intros (H1 & H2 & H3 & H4)%not_in_topics. unfold dispatch.
  apply String.eqb_neq in H1, H2, H3, H4. by rewrite H1, H2, H3, H4.
Qed.

Lemma handle_anomalies e d :
  anomaliesDetected (statistics (store (handle e d))) =
    anomaliesDetected (statistics d) + (if is_anomaly_message e then 1 else 0).
Proof.
  destruct e as [topic [data|] c| |alertId now|socket|socket|socket alertId|socket];
    cbn [handle is_anomaly_message]; try (simpl; lia).
  - rewrite on_message_decoded. cbn [store].
    destruct (topic_in_or_out topic) as [->|[->|[->|[->|Hout]]]].
    + rewrite dispatch_sensor, handleSensorData_eq. simpl. lia.
    + rewrite dispatch_alert. destruct (nullish data) eqn:Hnull.
      * rewrite handleEmergencyAlert_throws by done. simpl. lia.
      * rewrite handleEmergencyAlert_eq by done. destruct (is_critical data); simpl; lia.
    + simpl. lia.
    + simpl. lia.
    + rewrite dispatch_unsubscribed by done.
      apply not_in_topics in Hout as (_ & _ & _ & Hne).
      apply String.eqb_neq in Hne. rewrite Hne. simpl. lia.
  - destruct (find_alert (VStr alertId) (alerts d)) as [i|] eqn:Hfind.
    + destruct (proj1 (find_alert_Some _ _ _) Hfind) as (a & Ha & _).
      rewrite (post_acknowledge_found _ _ _ _ _ Hfind Ha). simpl. lia.
    + rewrite post_acknowledge_not_found by done. simpl. lia.
  - destruct (find_alert alertId (alerts d)) as [i|] eqn:Hfind.
    + rewrite (on_acknowledgeAlert_found _ _ _ Hfind). simpl. lia.
    + rewrite on_acknowledgeAlert_not_found by done. simpl. lia.
Qed.

Lemma run_anomalies es d :
  anomaliesDetected (statistics (run es d)) =
    anomaliesDetected (statistics d) + count_events is_anomaly_message es.
Proof.
  revert d. induction es as [|e es IH]; intros d.
  - unfold count_events. simpl. lia.
  - simpl run. rewrite count_events_cons, IH, handle_anomalies. lia.
Qed.

(** X8: [anomaliesDetected] counts the decoded messages on the anomaly
    topic, whatever they carry: a payload whose [prediction] does not flag
    an anomaly, or even [null], counts as well, and such a message changes
    nothing else in the store. *)
Theorem anomaly_counter_counts_every_message (es : list event) (d : dashboard)
    (data : value) (c : clock) :
  anomaliesDetected (statistics (run es d)) =
    anomaliesDetected (statistics d) + count_events is_anomaly_message es
  ∧ handle (MqttMessage anomaly_topic (Some data) c) d =
      mkResult (Normal tt) (set_statistics incr_anomaliesDetected d)
        [io_emit "dataUpdate" (data_update anomaly_topic data (emit_date c))].
Proof.
  split; [apply run_anomalies | reflexivity].
Qed.

Lemma handle_predictions e d :
  predictions (store (handle e d)) = default (predictions d) (prediction_of e).
Proof.
  destruct e as [topic [data|] c| |alertId now|socket|socket|socket alertId|socket];
    cbn [handle prediction_of]; try reflexivity.
  - rewrite on_message_decoded. cbn [store].
    destruct (topic_in_or_out topic) as [->|[->|[->|[->|Hout]]]].
    + rewrite dispatch_sensor, handleSensorData_eq. reflexivity.
    + rewrite dispatch_alert. destruct (nullish data) eqn:Hnull.
      * rewrite handleEmergencyAlert_throws by done. reflexivity.
      * rewrite handleEmergencyAlert_eq by done. reflexivity.
    + reflexivity.
    + reflexivity.
    + rewrite dispatch_unsubscribed by done.
      apply not_in_topics in Hout as (_ & _ & Hne & _).
      apply String.eqb_neq in Hne. rewrite Hne. reflexivity.
  - destruct (find_alert (VStr alertId) (alerts d)) as [i|] eqn:Hfind.
    + destruct (proj1 (find_alert_Some _ _ _) Hfind) as (a & Ha & _).
      by rewrite (post_acknowledge_found _ _ _ _ _ Hfind Ha).
    + by rewrite post_acknowledge_not_found.
  - destruct (find_alert alertId (alerts d)) as [i|] eqn:Hfind.
    + by rewrite (on_acknowledgeAlert_found _ _ _ Hfind).
    + by rewrite on_acknowledgeAlert_not_found.
Qed.

Lemma run_predictions_unchanged es d :
  (∀ e, e ∈ es → prediction_of e = None) →
  predictions (run es d) = predictions d.
Proof.
  revert d. induction es as [|e es IH]; intros d Hes; [reflexivity|].
  simpl run. rewrite IH.
  - rewrite handle_predictions, (Hes e); [reflexivity | apply list_elem_of_here].
  - intros e' He'. apply Hes. by apply list_elem_of_further.
Qed.

(** X9: the prediction store keeps no history.  After a run it holds
    exactly the snapshot of the last prediction message, its [timestamp]
    being the time of that message, whatever was stored or received before;
    a run without a prediction message leaves it as it was. *)
Theorem prediction_snapshot_is_last_message (es1 es2 : list event)
    (data : value) (c : clock) (d : dashboard) :
  (∀ e, e ∈ es2 → prediction_of e = None) →
  predictions (run (es1 ++ MqttMessage prediction_topic (Some data) c :: es2) d) =
    object_literal [Spread data; Field "timestamp" (VDate (handler_date c))]
  ∧ predictions (run es2 d) = predictions d.
Proof.
  intros Hes2. split; [|by apply run_predictions_unchanged].
  rewrite run_app. cbn [run]. rewrite run_predictions_unchanged by done.
  rewrite handle_predictions. reflexivity.
Qed.

Lemma prediction_snapshot_witness :
  let p1 := MqttMessage prediction_topic (Some (VObj [("days", VNum 7)])) (mkClock 1 1 1) in
  let es2 := [MqttMessage sensor_topic (Some (reading 1)) (mkClock 3 3 3); Connection 1] in
  predictions (run ([p1] ++ MqttMessage prediction_topic (Some (VObj [("days", VNum 5)]))
                               (mkClock 2 2 2) :: es2) (dashboardData 0)) =
    [("days", VNum 5); ("timestamp", VDate 2)].
Proof.
  intros p1 es2.
  refine (proj1 (prediction_snapshot_is_last_message [p1] es2 _ _ _ _)).
  intros e He. unfold es2 in He.
  apply elem_of_cons in He as [->|He]; [reflexivity|].
  apply list_elem_of_singleton in He. subst e. reflexivity.
Defined.

(** ** Snapshots *)

Lemma trace_app es1 es2 d :
  trace (es1 ++ es2) d = trace es1 d ++ trace es2 (run es1 d).
Proof.
  revert d. induction es1 as [|e es1 IH]; intros d; simpl; [done|].
  by rewrite IH, app_assoc.
Qed.

(** X10: a snapshot is the store of its moment.  In any run, the
    [initialData] sent to a connecting socket, the reply to [requestData]
    and the answer of the data route carry the store exactly as the events
    before them left it, go to the one socket or request concerned, and
    leave the store to the events after them unchanged. *)
Theorem snapshot_is_store_of_its_moment (es1 es2 : list event) (d : dashboard)
    (socket : nat) :
  trace (es1 ++ Connection socket :: es2) d =
    trace es1 d
    ++ [console_log "Client connected";
        socket_emit socket "initialData" (dashboard_value (run es1 d))]
    ++ trace es2 (run es1 d)
  ∧ trace (es1 ++ RequestData socket :: es2) d =
      trace es1 d
      ++ [socket_emit socket "dataUpdate" (dashboard_value (run es1 d))]
      ++ trace es2 (run es1 d)
  ∧ trace (es1 ++ GetDashboardData :: es2) d =
      trace es1 d
      ++ [res_json 200 (dashboard_value (run es1 d))]
      ++ trace es2 (run es1 d).
Proof. rewrite !trace_app. repeat split. Qed.

(** ** What each event leaves alone *)

Lemma handle_systemStatus e d : systemStatus (store (handle e d)) = systemStatus d.
Proof.
  destruct e as [topic [data|] c| |alertId now|socket|socket|socket alertId|socket];
    cbn [handle]; try reflexivity.
  - rewrite on_message_decoded. cbn [store].
    destruct (topic_in_or_out topic) as [->|[->|[->|[->|Hout]]]].
    + rewrite dispatch_sensor, handleSensorData_eq. reflexivity.
    + rewrite dispatch_alert. destruct (nullish data) eqn:Hnull.
      * rewrite handleEmergencyAlert_throws by done. reflexivity.
      * rewrite handleEmergencyAlert_eq by done. reflexivity.
    + reflexivity.
    + reflexivity.
    + rewrite dispatch_unsubscribed by done. reflexivity.
  - destruct (find_alert (VStr alertId) (alerts d)) as [i|] eqn:Hfind.
    + destruct (proj1 (find_alert_Some _ _ _) Hfind) as (a & Ha & _).
      by rewrite (post_acknowledge_found _ _ _ _ _ Hfind Ha).
    + by rewrite post_acknowledge_not_found.
  - destruct (find_alert alertId (alerts d)) as [i|] eqn:Hfind.
    + by rewrite (on_acknowledgeAlert_found _ _ _ Hfind).
    + by rewrite on_acknowledgeAlert_not_found.
Qed.

Lemma dashboard_eq d d' :
  sensors d = sensors d' → alerts d = alerts d' → predictions d = predictions d' →
  systemStatus d = systemStatus d' →
  totalAlerts (statistics d) = totalAlerts (statistics d') →
  criticalAlerts (statistics d) = criticalAlerts (statistics d') →
  anomaliesDetected (statistics d) = anomaliesDetected (statistics d') →
  d = d'.
Proof.
  destruct d as [s a p y [t c n]], d' as [s' a' p' y' [t' c' n']]. simpl.
  by intros -> -> -> -> -> -> ->.
Qed.

(** X11: the component status is never updated: after any run it is what
    the module created.  And each message writes to its own part of the
    store only: one that is not a sensor reading leaves the sensor store, one
    that is not an alert leaves [totalAlerts] and [criticalAlerts], one that
    is not a prediction leaves the prediction snapshot; a message on a topic
    outside the subscribed four leaves the whole store and is only fanned
    out. *)
Theorem events_write_their_own_part (es : list event) (e : event)
    (d : dashboard) (topic : string) (data : value) (c : clock) :
  systemStatus (run es d) = systemStatus d
  ∧ (sensor_entry e = [] → sensors (store (handle e d)) = sensors d)
  ∧ (is_alert_ingestion e = false →
       totalAlerts (statistics (store (handle e d))) = totalAlerts (statistics d)
       ∧ criticalAlerts (statistics (store (handle e d))) =
           criticalAlerts (statistics d))
  ∧ (prediction_of e = None →
       predictions (store (handle e d)) = predictions d)
  ∧ (topic ∉ topics →
       handle (MqttMessage topic (Some data) c) d =
         mkResult (Normal tt) d
           [io_emit "dataUpdate" (data_update topic data (emit_date c))]).
Proof.
  split; [|split; [|split; [|split]]].
  - revert d. induction es as [|e' es IH]; intros d; [reflexivity|].
    simpl run. by rewrite IH, handle_systemStatus.
  - intros He. rewrite handle_sensors.
    destruct e as [topic' [data'|] c'| | | | | |]; cbn [next_sensors sensor_entry] in *;
      try reflexivity.
    destruct (String.eqb topic' sensor_topic); [discriminate | reflexivity].
  - intros He. destruct (handle_statistics e d) as [-> ->].
    assert (is_critical_ingestion e = false) as ->.
    { destruct (is_critical_ingestion e) eqn:Hc; [|done].
      apply critical_is_alert_ingestion in Hc. congruence. }
    rewrite He. lia.
  - intros He. by rewrite handle_predictions, He.
  - intros Hout. cbn [handle]. rewrite on_message_decoded.
    rewrite dispatch_unsubscribed by done. reflexivity.
Qed.

Lemma events_write_their_own_part_witness :
  let d := one_alert in
  let e := MqttMessage prediction_topic (Some (VObj [])) (mkClock 8 8 8) in
  sensors (store (handle e d)) = sensors d
  ∧ totalAlerts (statistics (store (handle e d))) = totalAlerts (statistics d)
  ∧ predictions (store (handle (Connection 1) d)) = predictions d
  ∧ store (handle (MqttMessage "invernadero/riego" (Some VNull) (mkClock 8 8 8)) d) = d.
Proof.
  intros d e.
  pose proof (events_write_their_own_part [] e d "invernadero/riego" VNull
                (mkClock 8 8 8)) as (_ & Hs & Ht & _ & Ho).
  pose proof (events_write_their_own_part [] (Connection 1) d "invernadero/riego" VNull
                (mkClock 8 8 8)) as (_ & _ & _ & Hp & _).
  split; [exact (Hs eq_refl)|]. split; [exact (proj1 (Ht eq_refl))|].
  split; [exact (Hp eq_refl)|].
  rewrite Ho; [reflexivity|]. apply not_in_topics. repeat split; discriminate.
Defined.

(** ** Acknowledgments leave everything else alone, and compose *)

Lemma prop_set_idem k v (o : object) :
  prop_set k v (prop_set k v o) = prop_set k v o.
Proof.
  induction o as [|[k0 v0] o IH]; simpl.
  - by rewrite String.eqb_refl.
  - destruct (String.eqb k0 k) eqn:E; simpl; rewrite E; [reflexivity|].
    by rewrite IH.
Qed.

Lemma prop_set_same k v (o : object) : own k o = Some v → prop_set k v o = o.
Proof.
  induction o as [|[k0 v0] o IH]; simpl; [discriminate|].
  destruct (String.eqb k0 k); [by intros [= ->] | intros H; by rewrite IH].
Qed.

(** X12: an acknowledgment, through the route or from a subscriber, found
    or not, leaves the sensors, the prediction, the component status and
    all three counters as they were, and the alert list with the same
    alerts in the same order, changed in the acknowledgment properties at
    most. *)
Theorem acknowledgment_leaves_the_rest (e : event) (d : dashboard)
    (alertId : string) (now : Z) (socket : nat) (v : value) :
  e = PostAcknowledge alertId now ∨ e = AcknowledgeAlert socket v →
  let d' := store (handle e d) in
  sensors d' = sensors d
  ∧ predictions d' = predictions d
  ∧ systemStatus d' = systemStatus d
  ∧ statistics d' = statistics d
  ∧ Forall2 same_alert (alerts d) (alerts d').
Proof.
  assert (Forall2 same_alert (alerts d) (alerts d)) as Hrefl.
  { apply Forall2_same_length_lookup. split; [done|].
    intros i x y Hx Hy. assert (x = y) as -> by congruence. apply same_alert_refl. }
  intros [->| ->]; cbv zeta; cbn [handle].
  - destruct (find_alert (VStr alertId) (alerts d)) as [i|] eqn:Hfind.
    + destruct (proj1 (find_alert_Some _ _ _) Hfind) as (a & Ha & _).
      rewrite (post_acknowledge_found _ _ _ _ _ Hfind Ha).
      repeat split. cbn [store alerts set_alerts].
      apply Forall2_alter_r; [done|]. intros x y _ _ Hxy.
      apply same_alert_trans with y; [done | apply same_alert_acknowledge_at].
    + rewrite post_acknowledge_not_found by done. repeat split. done.
  - destruct (find_alert v (alerts d)) as [i|] eqn:Hfind.
    + rewrite (on_acknowledgeAlert_found _ _ _ Hfind).
      repeat split. cbn [store alerts set_alerts].
      apply Forall2_alter_r; [done|]. intros x y _ _ Hxy.
      apply same_alert_trans with y; [done | apply same_alert_set_acknowledged].
    + rewrite on_acknowledgeAlert_not_found by done. repeat split. done.
Qed.

Lemma acknowledgment_leaves_the_rest_witness :
  statistics (store (handle (PostAcknowledge "alert_5" 7) one_alert)) =
    statistics one_alert
  ∧ sensors (store (handle (AcknowledgeAlert 1 (VStr "alert_5")) one_alert)) =
      sensors one_alert.
Proof.
  split.
  - exact (proj1 (proj2 (proj2 (proj2
      (acknowledgment_leaves_the_rest _ one_alert "alert_5" 7 1 VNull
         (or_introl eq_refl)))))).
  - exact (proj1
      (acknowledgment_leaves_the_rest _ one_alert "alert_5" 7 1 (VStr "alert_5")
         (or_intror eq_refl))).
Defined.

Lemma alter_twice_same {A} (f g h : A → A) (l : list A) i :
  (∀ x, f (g x) = h x) → alter f i (alter g i l) = alter h i l.
Proof.
  intros Hfg. rewrite list_alter_alter_eq. apply list_alter_ext; [|done].
  intros x _. apply Hfg.
Qed.

Lemma own_acknowledged_acknowledge_at now a :
  own "acknowledged" (acknowledge_at now a) = Some (VBool true).
Proof.
  unfold acknowledge_at. rewrite own_prop_set_ne by done. apply own_prop_set_eq.
Qed.

(** X13: acknowledging again changes nothing in the store.  A subscriber
    acknowledgment repeated on the same id leaves the store as the first one
    left it and is broadcast again; after a route acknowledgment it changes
    nothing either; and a route acknowledgment after a subscriber one gives
    the store the route alone would have given. *)
Theorem acknowledgments_compose (d : dashboard) (alertId : string) (now : Z)
    (socket socket' : nat) (v : value) :
  let ack := handle (AcknowledgeAlert socket v) d in
  let post := handle (PostAcknowledge alertId now) d in
  handle (AcknowledgeAlert socket' v) (store ack) =
    mkResult (Normal tt) (store ack) (sent ack)
  ∧ store (handle (AcknowledgeAlert socket (VStr alertId)) (store post)) = store post
  ∧ store (handle (PostAcknowledge alertId now)
             (store (handle (AcknowledgeAlert socket (VStr alertId)) d))) =
      store post.
Proof.
  cbv zeta. cbn [handle]. split; [|split].
  - destruct (find_alert v (alerts d)) as [i|] eqn:Hfind.
    + rewrite (on_acknowledgeAlert_found _ _ _ Hfind). cbn [store sent].
      rewrite (on_acknowledgeAlert_found _ _ i).
      * unfold set_alerts; cbn [alerts sensors predictions systemStatus statistics].
        rewrite (alter_twice_same _ _ (prop_set "acknowledged" (VBool true)));
          [reflexivity|]. intros x. apply prop_set_idem.
      * cbn [alerts set_alerts]. rewrite find_alert_alter; [done|].
        intros x. by rewrite prop_get_prop_set_ne.
    + rewrite (on_acknowledgeAlert_not_found v d Hfind). cbn [store sent].
      by rewrite (on_acknowledgeAlert_not_found v d Hfind).
  - destruct (find_alert (VStr alertId) (alerts d)) as [i|] eqn:Hfind.
    + destruct (proj1 (find_alert_Some _ _ _) Hfind) as (a & Ha & _).
      rewrite (post_acknowledge_found _ _ _ _ _ Hfind Ha). cbn [store].
      rewrite (on_acknowledgeAlert_found _ _ i).
      * unfold set_alerts; cbn [store alerts sensors predictions systemStatus statistics].
        rewrite (alter_twice_same _ _ (acknowledge_at now)); [reflexivity|].
        intros x. apply prop_set_same, own_acknowledged_acknowledge_at.
      * cbn [alerts set_alerts]. rewrite find_alert_alter; [done|].
        intros x. unfold acknowledge_at. by rewrite !prop_get_prop_set_ne.
    + rewrite (post_acknowledge_not_found alertId now d Hfind). cbn [store].
      by rewrite (on_acknowledgeAlert_not_found _ d Hfind).
  - destruct (find_alert (VStr alertId) (alerts d)) as [i|] eqn:Hfind.
    + destruct (proj1 (find_alert_Some _ _ _) Hfind) as (a & Ha & _).
      rewrite (on_acknowledgeAlert_found _ _ _ Hfind). cbn [store].
      rewrite (post_acknowledge_found _ _ _ i (prop_set "acknowledged" (VBool true) a)).
      * rewrite (post_acknowledge_found _ _ _ _ _ Hfind Ha).
        unfold set_alerts; cbn [store alerts sensors predictions systemStatus statistics].
        rewrite (alter_twice_same _ _ (acknowledge_at now)); [reflexivity|].
        intros x. unfold acknowledge_at. by rewrite prop_set_idem.
      * cbn [alerts set_alerts]. rewrite find_alert_alter; [done|].
        intros x. by rewrite prop_get_prop_set_ne.
      * cbn [alerts set_alerts]. by rewrite list_lookup_alter_eq, Ha.
    + rewrite (on_acknowledgeAlert_not_found _ d Hfind). cbn [store]. reflexivity.
Qed.

(** ** Errors never leave the handlers *)

(** X14: no event makes a handler throw out of the event loop.  The message
    handler logs an error in two cases only, a text that does not parse and
    a [null] payload on the alert topic, and in these two cases it sends no
    [dataUpdate]; in every other case it logs no error and sends one. *)
Theorem errors_stay_in_the_handler (e : event) (topic : string)
    (message : option value) (c : clock) (d : dashboard) :
  let r := handle (MqttMessage topic message c) d in
  let failed :=
    match message with
    | None => true
    | Some data => String.eqb topic alert_topic && nullish data
    end in
  outcome (handle e d) = Normal tt
  ∧ length (List.filter is_console_error (sent r)) = (if failed then 1 else 0)
  ∧ count_emits "dataUpdate" (sent r) = (if failed then 0 else 1).
Proof.
  cbv zeta. split; [apply handle_completes|].
  destruct message as [data|]; [|split; reflexivity].
  cbn [handle]. rewrite on_message_decoded. cbn [sent].
  destruct (topic_in_or_out topic) as [->|[->|[->|[->|Hout]]]].
  - rewrite dispatch_sensor, handleSensorData_eq. split; reflexivity.
  - rewrite dispatch_alert. change (String.eqb alert_topic alert_topic) with true.
    destruct (nullish data) eqn:Hnull.
    + rewrite handleEmergencyAlert_throws by done. split; reflexivity.
    + rewrite handleEmergencyAlert_eq by done. split; reflexivity.
  - split; reflexivity.
  - split; reflexivity.
  - rewrite dispatch_unsubscribed by done.
    apply not_in_topics in Hout as (_ & Hne & _).
    apply String.eqb_neq in Hne. rewrite Hne. split; reflexivity.
Qed.

(** ** What reaches the page *)

Lemma client_logs_app me out1 out2 :
  client_logs me (out1 ++ out2) = client_logs me out1 ++ client_logs me out2.
Proof. unfold client_logs. apply bind_app. Qed.

Lemma handleRealDataUpdate_data_update topic data now :
  handleRealDataUpdate (data_update topic data now) =
    Normal
      (UpdateLogged (VStr topic) ::
       (if String.eqb topic sensor_topic then updateSensorData data
        else if String.eqb topic anomaly_topic then updateAnomalies data
        else if String.eqb topic alert_topic then displayRealAlert data
        else if String.eqb topic prediction_topic then updatePredictions data
        else [])).
Proof. reflexivity. Qed.

Lemma client_logs_data_update me topic data now :
  client_logs me [io_emit "dataUpdate" (data_update topic data now)] =
    UpdateLogged (VStr topic) ::
    (if String.eqb topic sensor_topic then updateSensorData data
     else if String.eqb topic anomaly_topic then updateAnomalies data
     else if String.eqb topic alert_topic then displayRealAlert data
     else if String.eqb topic prediction_topic then updatePredictions data
     else []).
Proof.
  unfold client_logs. rewrite bind_cons. change ([] ≫= _) with (@nil client_log).
  rewrite app_nil_r. reflexivity.
Qed.

(** X15: an alert reaches the page twice.  For an alert message whose
    payload is not [null] the page calls [displayRealAlert] once for the
    [newAlert] event, with the stored record, and once more for the
    [dataUpdate] event, with the raw payload; for a [null] payload the alert
    is stored but nothing reaches the page. *)
Theorem alert_reaches_page_twice (me : nat) (data : value) (c : clock)
    (d : dashboard) :
  client_logs me (sent (handle (MqttMessage alert_topic (Some data) c) d)) =
    if nullish data then []
    else [AlertDisplayed (VObj (new_alert data (date_now c) (handler_date c)));
          UpdateLogged (VStr alert_topic);
          AlertDisplayed data].
Proof.
  cbn [handle]. rewrite on_message_decoded, dispatch_alert. cbn [sent].
  destruct (nullish data) eqn:Hnull.
  - rewrite handleEmergencyAlert_throws by done. reflexivity.
  - rewrite handleEmergencyAlert_eq by done. cbn [sent outcome after_dispatch].
    rewrite client_logs_app, client_logs_data_update. reflexivity.
Qed.

(** X16: the page makes no use of the snapshots nor of the acknowledgment
    broadcast.  [initialData] and [alertAcknowledged] have no listener; the
    reply to [requestData] arrives as a [dataUpdate] without a [topic], so
    the requester logs an undefined topic and runs none of its four
    updates, and no other socket sees it. *)
Theorem page_ignores_snapshots_and_acknowledgments (me socket : nat)
    (v : value) (d : dashboard) :
  client_logs me (sent (handle (Connection socket) d)) = []
  ∧ client_logs me (sent (handle (RequestData socket) d)) =
      (if Nat.eqb socket me then [UpdateLogged VUndefined] else [])
  ∧ client_logs me (sent (handle (AcknowledgeAlert socket v) d)) = [].
Proof.
  split; [|split].
  - unfold client_logs. simpl. destruct (Nat.eqb socket me); reflexivity.
  - unfold client_logs. simpl. destruct (Nat.eqb socket me); reflexivity.
  - cbn [handle]. destruct (find_alert v (alerts d)) as [i|] eqn:Hfind.
    + rewrite (on_acknowledgeAlert_found _ _ _ Hfind). reflexivity.
    + rewrite (on_acknowledgeAlert_not_found _ _ Hfind). reflexivity.
Qed.

Lemma anomaly_logs_of_event me e d :
  length (List.filter is_anomaly_log (client_logs me (sent (handle e d)))) =
    if reported_anomaly e then 1 else 0.
Proof.
  destruct e as [topic [data|] c| |alertId now|socket|socket|socket alertId|socket];
    cbn [reported_anomaly]; try reflexivity.
  - cbn [handle]. rewrite on_message_decoded. cbn [sent].
    destruct (topic_in_or_out topic) as [->|[->|[->|[->|Hout]]]].
    + rewrite dispatch_sensor, handleSensorData_eq. cbn [sent outcome after_dispatch app].
      rewrite client_logs_data_update. unfold updateSensorData.
      destruct (truthy data); reflexivity.
    + rewrite dispatch_alert. destruct (nullish data) eqn:Hnull.
      * rewrite handleEmergencyAlert_throws by done. reflexivity.
      * rewrite handleEmergencyAlert_eq by done. cbn [sent outcome after_dispatch].
        rewrite client_logs_app, client_logs_data_update. reflexivity.
    + cbn [sent outcome after_dispatch app dispatch_prediction].
      rewrite dispatch_prediction, handlePredictionData_eq.
      cbn [sent outcome after_dispatch app]. rewrite client_logs_data_update. reflexivity.
    + rewrite dispatch_anomaly, handleAnomalyData_eq.
      cbn [sent outcome after_dispatch app]. rewrite client_logs_data_update.
      change (String.eqb anomaly_topic sensor_topic) with false.
      change (String.eqb anomaly_topic anomaly_topic) with true. cbv iota.
      unfold updateAnomalies. cbn [andb].
      destruct (truthy data && strict_eq _ _); reflexivity.
    + rewrite dispatch_unsubscribed by done. cbn [sent outcome after_dispatch app ret].
      rewrite client_logs_data_update.
      apply not_in_topics in Hout as (H1 & H2 & H3 & H4).
      apply String.eqb_neq in H1, H2, H3, H4. rewrite H1, H2, H3, H4. reflexivity.
  - cbn [handle]. destruct (find_alert (VStr alertId) (alerts d)) as [i|] eqn:Hfind.
    + destruct (proj1 (find_alert_Some _ _ _) Hfind) as (a & Ha & _).
      rewrite (post_acknowledge_found _ _ _ _ _ Hfind Ha). reflexivity.
    + rewrite (post_acknowledge_not_found _ _ _ Hfind). reflexivity.
  - unfold client_logs. simpl. destruct (Nat.eqb socket me); reflexivity.
  - unfold client_logs. simpl. destruct (Nat.eqb socket me); reflexivity.
  - cbn [handle]. destruct (find_alert alertId (alerts d)) as [i|] eqn:Hfind.
    + rewrite (on_acknowledgeAlert_found _ _ _ Hfind). reflexivity.
    + rewrite (on_acknowledgeAlert_not_found _ _ Hfind). reflexivity.
Qed.

(** X17: the page and the server do not count the same anomalies.  Over any
    run the page logs an anomaly for exactly the anomaly messages whose
    payload is truthy and has [prediction] equal to -1, while
    [anomaliesDetected] grows with every anomaly message; so the counter is
    never below the number of anomalies the page reports. *)
Theorem page_reports_flagged_anomalies_only (me : nat) (es : list event)
    (d : dashboard) :
  length (List.filter is_anomaly_log (client_logs me (trace es d))) =
    count_events reported_anomaly es
  ∧ anomaliesDetected (statistics (run es d)) =
      anomaliesDetected (statistics d) + count_events is_anomaly_message es
  ∧ count_events reported_anomaly es ≤ count_events is_anomaly_message es.
Proof.
  split; [|split; [apply run_anomalies|]].
  - revert d. induction es as [|e es IH]; intros d; [reflexivity|].
    cbn [trace]. rewrite client_logs_app, List.filter_app, length_app, IH.
    rewrite anomaly_logs_of_event, count_events_cons. reflexivity.
  - induction es as [|e es IH]; [done|]. rewrite !count_events_cons.
    assert (reported_anomaly e = true → is_anomaly_message e = true) as H.
    { destruct e as [topic [data|] c| | | | | |]; cbn; try discriminate.
      destruct (String.eqb topic anomaly_topic); [done | discriminate]. }
    destruct (reported_anomaly e); [rewrite H by done|];
      destruct (is_anomaly_message e); lia.
Qed.

(** ** The simulated harvest countdown *)

Lemma countdown_after_refl b : countdown_after 0 b b.
Proof.
  destruct b as [|m safe]; unfold countdown_after; simpl; [done|].
  exists m. split; [done|]. lia.
Qed.

Lemma countdown_after_new_days b r : countdown_after 1 b (new_days b r).
Proof.
  destruct b as [|m safe]; unfold countdown_after; simpl; [done|].
  eexists. split; [reflexivity|]. unfold decrement.
  destruct (Qle_bool (1 # 2) r); lia.
Qed.

Lemma countdown_after_unchanged b : countdown_after 1 b b.
Proof.
  destruct b as [|m safe]; unfold countdown_after; simpl; [done|].
  exists m. split; [done|]. lia.
Qed.

Lemma countdown_after_step n b mid a :
  countdown_after 1 b mid → countdown_after n mid a → countdown_after (S n) b a.
Proof.
  unfold countdown_after. destruct (days b) as [m|].
  - intros (m1 & -> & H1 & H1'). intros (m2 & -> & H2 & H2').
    exists m2. split; [done|]. lia.
  - intros ->. done.
Qed.

Lemma simulateDataChanges_step boxes random i :
  Forall2 (countdown_after 1) boxes (simulateDataChanges boxes random i).1.
Proof.
  revert i. induction boxes as [|b boxes IH]; intros i; simpl; [constructor|].
  destruct (Qle_bool (1 # 10) (random i)).
  - specialize (IH (S i)). destruct (simulateDataChanges boxes random (S i)) as [rest j].
    simpl in *. constructor; [apply countdown_after_unchanged | done].
  - specialize (IH (S (S i))).
    destruct (simulateDataChanges boxes random (S (S i))) as [rest j].
    simpl in *. constructor; [apply countdown_after_new_days | done].
Qed.

(** X18: the simulated countdown stops at one.  For countdowns of at most
    [Number.MAX_SAFE_INTEGER], whatever the random draws, after [n] passes
    of [simulateDataChanges] every box is still there; a countdown that was
    at least 1 is between 1 and its old value and has lost at most [n]
    days, so it never reaches 0 and never grows; one that was below 1 is
    unchanged or has jumped to 1; an unreadable one stays unreadable. *)
Theorem harvest_countdown_stops_at_one (n : nat) (boxes : list countdown)
    (random : nat → Q) (i : nat) :
  Forall2 (countdown_after n) boxes (updateData_times n boxes random i).1.
Proof.
  revert boxes i. induction n as [|n IH]; intros boxes i; simpl.
  - apply Forall2_same_length_lookup. split; [done|].
    intros k x y Hx Hy. assert (x = y) as -> by congruence.
    apply countdown_after_refl.
  - pose proof (simulateDataChanges_step boxes random i) as Hstep.
    destruct (simulateDataChanges boxes random i) as [boxes' j]. simpl in Hstep.
    apply (Forall2_trans _ _ (countdown_after (S n)) _ _ _
             (fun x y z => countdown_after_step n x y z) Hstep (IH boxes' j)).
Qed.

(** ** Instances of the statements above on concrete runs *)

Lemma sensor_store_invariant_witness :
  let es := [sensor_message 1 1; sensor_message 2 2] in
  ∃ data c, MqttMessage sensor_topic (Some data) c ∈ es
            ∧ sensor_key 2 = sensor_key (date_now c)
            ∧ sensor_record (reading 2) 2 = sensor_record data (handler_date c).
Proof.
  intros es.
  apply (proj2 (proj2 (sensor_store_invariant 0 es))).
  vm_compute. apply list_elem_of_further, list_elem_of_here.
Defined.

Lemma payload_cannot_set_bookkeeping_witness :
  let data := VObj [("timestamp", VStr "yesterday"); ("Tair", VNum 21)] in
  prop_get "timestamp" (new_alert data 5 6) = VDate 6
  ∧ own "Tair" (new_alert data 5 6) = own "Tair" (spread_copy data).
Proof.
  intros data.
  destruct (payload_cannot_set_bookkeeping data 5 6)
    as (_ & (Hts & _ & _ & Hother) & _).
  split; [exact Hts|]. apply Hother; discriminate.
Defined.
